(** * sBitx Branch Manager: a shallow embedding of the checkout-and-build
    orchestration and of the collaborators it calls.

    The development follows the layout of the Python sources:

    - [models/repository.py]   URL validation and the [Repository] record;
    - [core/config_manager.py] the JSON configuration store;
    - [core/git_manager.py]    the wrappers around the [git] executable;
    - [core/build_manager.py]  the wrapper around the build script;
    - [gui/main_window.py]     the background worker that sequences them.

    Python values are modelled as follows.  A [str] is a [string]; a
    character of it is read as the code point of the same number (so the
    model covers code points below 256, which includes every character of
    a GitHub URL).  A [dict] with string keys is a [gmap string _].  An
    exception is a value of [Exn]; a function that may raise returns a
    [Res].  Code that talks to the outside world (the file system, child
    processes, the configuration directory, the message queue) is written
    in a state-and-exception monad over an explicit state. *)

From stdpp Require Import base option list gmap strings sorting pretty.
From Stdlib Require Import ZArith Ascii.

Local Open Scope Z_scope.

(* ===================================================================== *)
(** * Python primitives *)
(* ===================================================================== *)

Module Py.

(** Code point of a character. *)
Definition ord (c : ascii) : N := N_of_ascii c.

(** [str.isspace] on one character (code points below 256). *)
Definition isspace (c : ascii) : bool :=
  let n := ord c in
  ((9 <=? n) && (n <=? 13) || (28 <=? n) && (n <=? 32)
   || (n =? 133) || (n =? 160))%N.

(** [str.isalnum] on one character (code points below 256): letters,
    decimal digits and the Latin-1 letters, superscripts and fractions
    that the Unicode database classifies as alphanumeric. *)
Definition isalnum (c : ascii) : bool :=
  let n := ord c in
  ((48 <=? n) && (n <=? 57) || (65 <=? n) && (n <=? 90)
   || (97 <=? n) && (n <=? 122)
   || (n =? 170) || (n =? 178) || (n =? 179) || (n =? 181)
   || (n =? 185) || (n =? 186) || (188 <=? n) && (n <=? 190)
   || (192 <=? n) && (n <=? 214) || (216 <=? n) && (n <=? 246)
   || (248 <=? n) && (n <=? 255))%N.

(** [s.lstrip()], [s.rstrip()] and [s.strip()] with no argument. *)
Fixpoint lstrip (s : string) : string :=
  match s with
  | "" => ""
  | String c s' => if isspace c then lstrip s' else s
  end.

Fixpoint rstrip (s : string) : string :=
  match s with
  | "" => ""
  | String c s' =>
      match rstrip s' with
      | "" => if isspace c then "" else String c ""
      | r => String c r
      end
  end.

Definition strip (s : string) : string := rstrip (lstrip s).

(** [s.startswith(p)] and [s.endswith(p)]. *)
Fixpoint startswith (s p : string) {struct p} : bool :=
  match p, s with
  | "", _ => true
  | String a p', String b s' => Ascii.eqb a b && startswith s' p'
  | String _ _, "" => false
  end.

Fixpoint endswith (s p : string) : bool :=
  String.eqb s p ||
  match s with
  | "" => false
  | String _ s' => endswith s' p
  end.

(** [s.split(sep)] for a one-character separator. *)
Fixpoint split (sep : ascii) (s : string) : list string :=
  match s with
  | "" => [""]
  | String c s' =>
      if Ascii.eqb c sep then "" :: split sep s'
      else match split sep s' with
           | w :: ws => String c w :: ws
           | [] => [String c ""]
           end
  end.

(** [s.replace(old, new)] for a non-empty [old]: every non-overlapping
    occurrence of [old], scanning from the left, is replaced.  [skip]
    counts the characters of the occurrence just replaced that are still
    to be passed over. *)
Fixpoint replace_go (old new : string) (skip : nat) (s : string) : string :=
  match s with
  | "" => ""
  | String c s' =>
      match skip with
      | S k => replace_go old new k s'
      | O =>
          if startswith s old
          then new +:+ replace_go old new (String.length old - 1) s'
          else String c (replace_go old new 0 s')
      end
  end.

Definition replace (s old new : string) : string := replace_go old new 0 s.

(** [x in s] for two strings: [x] is a substring of [s]. *)
Fixpoint contains (s x : string) : bool :=
  startswith s x ||
  match s with
  | "" => false
  | String _ s' => contains s' x
  end.

(** [sorted(l)] on a list of strings: the order of [str] is the
    lexicographic order of code points. *)
Definition sorted (l : list string) : list string := merge_sort String.le l.

(** [str(n)] for an integer. *)
Definition str_of_int (n : Z) : string := pretty n.

(** The line feed and the tabulation. *)
Definition LF : ascii := "010"%char.
Definition TAB : ascii := "009"%char.
Definition nl : string := String LF "".

(** What [json.load] returns (numbers are integers here: the
    configuration holds none). *)
#[local] Set Warnings "-register-all".
Inductive Json :=
| JNull
| JBool (b : bool)
| JNum (n : Z)
| JStr (s : string)
| JList (l : list Json)
| JDict (d : gmap string Json).
#[local] Set Warnings "register-all".

(** Exceptions.  [OtherException] stands for every other subclass of
    [Exception] ([OSError], [TypeError], [KeyError], ...); the argument
    is what [str(e)] gives. *)
Inductive Exn :=
| GitError (msg : string)
| BuildError (msg : string)
| ConfigError (msg : string)
| TimeoutExpired (msg : string)
| JSONDecodeError (msg : string)
| OtherException (msg : string).

Definition str_of_exn (e : Exn) : string :=
  match e with
  | GitError m | BuildError m | ConfigError m
  | TimeoutExpired m | JSONDecodeError m | OtherException m => m
  end.

(** The result of a call: a value, or an exception raised. *)
Inductive Res (A : Type) :=
| Ok (a : A)
| Raise (e : Exn).
Global Arguments Ok {A} a.
Global Arguments Raise {A} e.

(** [j == s] for a JSON value and a string. *)
Definition eq_str (j : Json) (s : string) : bool :=
  match j with
  | JStr s' => String.eqb s' s
  | _ => false
  end.

(** [s in j] for a string [s]: membership in a list, a key of a dict, a
    substring of a string; the other values are not containers. *)
Definition json_contains (j : Json) (s : string) : Res bool :=
  match j with
  | JList l => Ok (existsb (λ x, eq_str x s) l)
  | JDict d => Ok (bool_decide (is_Some (d !! s)))
  | JStr t => Ok (contains t s)
  | _ => Raise (OtherException "argument is not iterable")
  end.

(** [for x in j]: the elements of a list, the keys of a dict, the
    characters of a string; the other values are not iterable. *)
Fixpoint chars (s : string) : list string :=
  match s with
  | "" => []
  | String c s' => String c "" :: chars s'
  end.

Definition json_iter (j : Json) : Res (list Json) :=
  match j with
  | JList l => Ok l
  | JDict d => Ok (JStr <$> (map_to_list d).*1)
  | JStr t => Ok (JStr <$> chars t)
  | _ => Raise (OtherException "object is not iterable")
  end.

(** [a == b] for two JSON values: [True] and [False] are the numbers 1
    and 0, two lists are equal when they have the same length and equal
    elements, two dicts when they have the same keys and equal values. *)
Fixpoint py_eq (a b : Json) {struct a} : bool :=
  match a, b with
  | JNull, JNull => true
  | JBool x, JBool y => bool_decide (x = y)
  | JBool x, JNum n | JNum n, JBool x => n =? (if x then 1 else 0)
  | JNum m, JNum n => m =? n
  | JStr s, JStr t => String.eqb s t
  | JList l, JList l' =>
      (fix go (l l' : list Json) {struct l} : bool :=
         match l, l' with
         | [], [] => true
         | x :: l, y :: l' => py_eq x y && go l l'
         | _, _ => false
         end) l l'
  | JDict d, JDict d' =>
      bool_decide (dom d = dom d') &&
      map_fold (λ k v acc,
                  acc && match d' !! k with
                         | Some w => py_eq v w
                         | None => false
                         end) true d
  | _, _ => false
  end.

(** [sep.join(l)]. *)
Fixpoint join (sep : string) (l : list string) : string :=
  match l with
  | [] => ""
  | x :: l' =>
      match l' with
      | [] => x
      | _ => x +:+ sep +:+ join sep l'
      end
  end.

End Py.
Export Py (Json(..), Exn(..), Res(..)).

(* ===================================================================== *)
(** * State and exceptions *)
(* ===================================================================== *)

(** A computation over a state [S] that returns an [A] or raises, and
    leaves a state behind in both cases: what a Python function did before
    it raised is not undone. *)
Definition M (S A : Type) : Type := S → Res A * S.

Global Instance M_ret S : MRet (M S) := λ A a s, (Ok a, s).
Global Instance M_bind S : MBind (M S) := λ A B f m s,
  match m s with
  | (Ok a, s') => f a s'
  | (Raise e, s') => (Raise e, s')
  end.

Definition raise {S A} (e : Exn) : M S A := λ s, (Raise e, s).
Definition get {S} : M S S := λ s, (Ok s, s).
Definition put {S} (s : S) : M S unit := λ _, (Ok (), s).
Definition of_res {S A} (r : Res A) : M S A := λ s, (r, s).

(** [try: m  except Exception as e: h e].  The clauses of one [try] are
    the cases of [h]; an exception raised by a clause is not caught by its
    sibling clauses. *)
Definition try_except {S A} (m : M S A) (h : Exn → M S A) : M S A := λ s,
  match m s with
  | (Ok a, s') => (Ok a, s')
  | (Raise e, s') => h e s'
  end.

(* ===================================================================== *)
(** * Regular expressions, as the backtracking matcher of [re] runs them *)
(* ===================================================================== *)

(** A pattern is a function from the text still to be read to the list of
    ways it can match a prefix of it, in the order in which a backtracking
    matcher tries them; each way is the text matched and the text left.
    [re.match] keeps the first way of the whole pattern. *)
Module Re.

Definition pat : Type := string → list (string * string).

(** A literal. *)
Fixpoint drop_prefix (p s : string) : option string :=
  match p, s with
  | "", _ => Some s
  | String a p', String b s' => if Ascii.eqb a b then drop_prefix p' s' else None
  | String _ _, "" => None
  end.

Definition lit (p : string) : pat := λ s,
  match drop_prefix p s with
  | Some r => [(p, r)]
  | None => []
  end.

(** One character of a class. *)
Definition one (cls : ascii → bool) : pat := λ s,
  match s with
  | String c s' => if cls c then [(String c "", s')] else []
  | "" => []
  end.

(** [[...]+] (greedy): the longest run first, then each shorter one. *)
Fixpoint plus (cls : ascii → bool) (s : string) : list (string * string) :=
  match s with
  | "" => []
  | String c s' =>
      if cls c
      then (prod_map (String c) id <$> plus cls s') ++ [(String c "", s')]
      else []
  end.

(** [[...]+?] (lazy): the shortest run first, then each longer one. *)
Fixpoint plus_lazy (cls : ascii → bool) (s : string) : list (string * string) :=
  match s with
  | "" => []
  | String c s' =>
      if cls c
      then (String c "", s') :: (prod_map (String c) id <$> plus_lazy cls s')
      else []
  end.

(** [p?] (greedy): with [p] first, then without. *)
Definition opt (p : pat) : string → list (option string * string) := λ s,
  (prod_map Some id <$> p s) ++ [(None, s)].

(** [p q]. *)
Definition seq (p q : pat) : pat := λ s,
  '(m1, r1) ← p s; '(m2, r2) ← q r1; [(m1 +:+ m2, r2)].

(** [$] without [re.MULTILINE]: at the end of the text, or just before a
    newline that is its last character. *)
Definition eol (s : string) : list unit :=
  if bool_decide (s = "" ∨ s = Py.nl) then [()] else [].

(** [\w] and [[\w-]]. *)
Definition word (c : ascii) : bool := Py.isalnum c || Ascii.eqb c "_".
Definition word_or_hyphen (c : ascii) : bool := word c || Ascii.eqb c "-".

(** All the text positions at which [re.search] tries the pattern, from
    the left. *)
Fixpoint suffixes (s : string) : list string :=
  s :: match s with "" => [] | String _ s' => suffixes s' end.

(** [re.match(p, s)] and [re.search(p, s)]; a compiled pattern yields
    the groups the caller reads. *)
Definition match_ {A} (p : string → list A) (s : string) : option A :=
  head (p s).
Definition search {A} (p : string → list A) (s : string) : option A :=
  head (s' ← suffixes s; p s').

End Re.


(* ===================================================================== *)
(** * models/repository.py *)
(* ===================================================================== *)

Module Repository.

(** The dataclass.  Its fields are annotated [str], but [from_dict]
    stores whatever the configuration file holds, so they are JSON
    values. *)
Record t := mk { url : Json; display_name : Json; added_date : Json }.

(** [[\w-]+/[\w-]+] *)
Definition owner_repo : Re.pat :=
  Re.seq (Re.plus Re.word_or_hyphen)
         (Re.seq (Re.lit "/") (Re.plus Re.word_or_hyphen)).

(** [^https://github\.com/([\w-]+/[\w-]+)(\.git)?$], read for group 1. *)
Definition https_pattern (s : string) : list string :=
  '(_, r1) ← Re.lit "https://github.com/" s;
  '(g1, r2) ← owner_repo r1;
  '(_, r3) ← Re.opt (Re.lit ".git") r2;
  _ ← Re.eol r3;
  [g1].

(** [^git@github\.com:([\w-]+/[\w-]+)(\.git)?$], read for group 1. *)
Definition ssh_pattern (s : string) : list string :=
  '(_, r1) ← Re.lit "git@github.com:" s;
  '(g1, r2) ← owner_repo r1;
  '(_, r3) ← Re.opt (Re.lit ".git") r2;
  _ ← Re.eol r3;
  [g1].

(** [^(github\.com/)?([\w-]+/[\w-]+)$], read for group 2. *)
Definition short_pattern (s : string) : list string :=
  '(_, r1) ← Re.opt (Re.lit "github.com/") s;
  '(g2, r2) ← owner_repo r1;
  _ ← Re.eol r2;
  [g2].

(** [github\.com[/:]([\w-]+/[\w-]+)], read for group 1. *)
Definition display_pattern (s : string) : list string :=
  '(_, r1) ← Re.lit "github.com" s;
  '(_, r2) ← Re.one (λ c, Ascii.eqb c "/" || Ascii.eqb c ":") r1;
  '(g1, _) ← owner_repo r2;
  [g1].

Definition validate_and_normalize_url (url : string) : option string :=
  let url := Py.strip url in
  match Re.match_ https_pattern url with
  | Some base => Some ("https://github.com/" +:+ base +:+ ".git")
  | None =>
      match Re.match_ ssh_pattern url with
      | Some _ => Some (if Py.endswith url ".git" then url else url +:+ ".git")
      | None =>
          match Re.match_ short_pattern url with
          | Some user_repo => Some ("https://github.com/" +:+ user_repo +:+ ".git")
          | None => None
          end
      end
  end.

(** [[^/]] *)
Definition not_slash (c : ascii) : bool := negb (Ascii.eqb c "/").

(** [github\.com/([^/]+/[^/]+?)(\.git)?$] and
    [github\.com:([^/]+/[^/]+?)(\.git)?$], read for group 1; [sep] is the
    character after the host. *)
Definition short_name_pattern (sep : string) (s : string) : list string :=
  '(_, r1) ← Re.lit ("github.com" +:+ sep) s;
  '(g1, r2) ← Re.seq (Re.plus not_slash)
                     (Re.seq (Re.lit "/") (Re.plus_lazy not_slash)) r1;
  '(_, r3) ← Re.opt (Re.lit ".git") r2;
  _ ← Re.eol r3;
  [g1].

(** [re.search] raises [TypeError] on a URL that is not a string. *)
Definition get_short_name (self : t) : Res Json :=
  match url self with
  | JStr u =>
      match Re.search (short_name_pattern "/") u with
      | Some g1 => Ok (JStr g1)
      | None =>
          match Re.search (short_name_pattern ":") u with
          | Some g1 => Ok (JStr g1)
          | None => Ok (display_name self)
          end
      end
  | _ => Raise (OtherException "TypeError")
  end.

Definition to_dict (self : t) : gmap string Json :=
  <["url" := url self]>
    (<["display_name" := display_name self]>
       (<["added_date" := added_date self]> ∅)).

(** [data['url']] and the like raise when [data] is not a dict or lacks
    the key. *)
Definition from_dict (data : Json) : Res t :=
  match data with
  | JDict d =>
      match d !! "url", d !! "display_name", d !! "added_date" with
      | Some u, Some n, Some a => Ok (mk u n a)
      | _, _, _ => Raise (OtherException "KeyError")
      end
  | _ => Raise (OtherException "TypeError")
  end.

(** [now] is what [datetime.now().isoformat()] returns.  The test
    [not normalized_url] holds for [None] and for the empty string. *)
Definition create_new (now : string) (url : string) : option t :=
  match validate_and_normalize_url url with
  | None => None
  | Some normalized_url =>
      if bool_decide (normalized_url = "") then None
      else
        let display_name :=
          match Re.search display_pattern normalized_url with
          | Some g1 => g1
          | None => normalized_url
          end in
        Some (mk (JStr normalized_url) (JStr display_name) (JStr now))
  end.

End Repository.

(* ===================================================================== *)
(** * core/config_manager.py *)
(* ===================================================================== *)

Module ConfigManager.

(** What a file of the configuration directory holds, as [json.load]
    sees it: text on which it raises [JSONDecodeError] (with that
    message), or a JSON object. *)
Inductive Content :=
| Garbage (msg : string)
| Document (config : gmap string Json).

(** The [ConfigManager] object together with the part of the world it
    acts on: [config_dir] is [self.config_dir]; [files] are the regular
    files, by path; [write_error] is [None] when files can be created,
    overwritten and renamed, and [Some msg] when every such attempt
    raises an [OSError] whose text is [msg]; [now] is the time of day. *)
Record Store := mkStore {
  config_dir : string;
  files : gmap string Content;
  write_error : option string;
  now : string
}.

Definition config_file (self : Store) : string :=
  config_dir self +:+ "/repositories.json".

Definition set_files (f : gmap string Content) (self : Store) : Store :=
  mkStore (config_dir self) f (write_error self) (now self).

(** [Path.exists]. *)
Definition exists_ (path : string) (self : Store) : bool :=
  bool_decide (is_Some (files self !! path)).

(** [with open(path, 'r') as f: json.load(f)]. *)
Definition json_load (path : string) : M Store (gmap string Json) :=
  self ← get;
  match files self !! path with
  | Some (Document config) => mret config
  | Some (Garbage msg) => raise (JSONDecodeError msg)
  | None => raise (OtherException ("No such file or directory: " +:+ path))
  end.

(** [with open(path, 'w') as f: json.dump(config, f, indent=2)]. *)
Definition json_dump (config : gmap string Json) (path : string) : M Store unit :=
  self ← get;
  match write_error self with
  | Some msg => raise (OtherException msg)
  | None => put (set_files (<[path := Document config]> (files self)) self)
  end.

(** [Path.rename]. *)
Definition rename (src dst : string) : M Store unit :=
  self ← get;
  match write_error self, files self !! src with
  | Some msg, _ => raise (OtherException msg)
  | None, None => raise (OtherException ("No such file or directory: " +:+ src))
  | None, Some c => put (set_files (<[dst := c]> (delete src (files self))) self)
  end.

Definition DEFAULT_URL : string := "https://github.com/drexjj/sbitx.git".

Definition save_config (config : gmap string Json) : M Store unit :=
  self ← get;
  try_except
    (json_dump config (config_file self))
    (λ e, raise (ConfigError ("Failed to save config: " +:+ Py.str_of_exn e))).

Definition _create_default_config : M Store (gmap string Json) :=
  self ← get;
  let default_repo := Repository.create_new (now self) "drexjj/sbitx" in
  let config : gmap string Json :=
    <["repositories" :=
        JList (match default_repo with
               | Some r => [JDict (Repository.to_dict r)]
               | None => []
               end)]>
      (<["default_repositories" := JList [JStr DEFAULT_URL]]>
         (<["last_used_repo" := JStr ""]>
            (<["last_used_branch" := JStr ""]> ∅))) in
  save_config config;;
  mret config.

Definition load_config : M Store (gmap string Json) :=
  self ← get;
  if negb (exists_ (config_file self) self) then _create_default_config
  else
    try_except
      (config ← json_load (config_file self);
       if bool_decide (config !! "default_repositories" = None) then
         let config := <["default_repositories" := JList [JStr DEFAULT_URL]]> config in
         save_config config;;
         mret config
       else mret config)
      (λ e,
         match e with
         | JSONDecodeError msg =>
             let backup_file := config_file self +:+ ".backup" in
             self' ← get;
             (if exists_ (config_file self) self'
              then rename (config_file self) backup_file
              else mret ());;
             raise (ConfigError
                      ("Config file is corrupted: " +:+ msg +:+ Py.nl +:+
                       "Backup saved to: " +:+ backup_file +:+ Py.nl +:+
                       "Creating new config..."))
         | _ => raise (ConfigError ("Failed to load config: " +:+ Py.str_of_exn e))
         end).

Definition load_repositories : M Store (list Repository.t) :=
  config ← load_config;
  items ← of_res (Py.json_iter (default (JList []) (config !! "repositories")));
  mret (repo_data ← items;
        match Repository.from_dict repo_data with
        | Ok r => [r]
        | Raise _ => []
        end).

Definition save_repositories (repositories : list Repository.t) : M Store unit :=
  config ← load_config;
  save_config
    (<["repositories" := JList ((λ r, JDict (Repository.to_dict r)) <$> repositories)]>
       config).

Definition add_repository (repository : Repository.t) : M Store bool :=
  repos ← load_repositories;
  if existsb (λ repo, Py.py_eq (Repository.url repo) (Repository.url repository)) repos
  then mret false
  else
    save_repositories (repos ++ [repository]);;
    mret true.

Definition is_default_repository (url : string) : M Store bool :=
  config ← load_config;
  let default_repos := default (JList []) (config !! "default_repositories") in
  of_res (Py.json_contains default_repos url).

Definition remove_repository (url : string) : M Store bool :=
  is_default ← is_default_repository url;
  if is_default : bool then mret false
  else
    repos ← load_repositories;
    let initial_count := length repos in
    let repos := base.filter (λ repo, negb (Py.eq_str (Repository.url repo) url)) repos in
    if bool_decide (length repos < initial_count)%nat then
      save_repositories repos;;
      mret true
    else mret false.

Definition get_last_used : M Store (Json * Json) :=
  config ← load_config;
  mret (default (JStr "") (config !! "last_used_repo"),
        default (JStr "") (config !! "last_used_branch")).

Definition set_last_used (repo_url branch_name : string) : M Store unit :=
  config ← load_config;
  save_config
    (<["last_used_branch" := JStr branch_name]>
       (<["last_used_repo" := JStr repo_url]> config)).

End ConfigManager.

(* ===================================================================== *)
(** * Child processes and the file system *)
(* ===================================================================== *)

Module Subprocess.

(** The arguments of a [subprocess.run] call; [capture] stands for
    [capture_output=True, text=True]. *)
Record Cmd := mkCmd {
  argv : list string;
  cwd : option string;
  capture : bool;
  timeout : Z
}.

(** What the call does: the child exits, or the time limit expires
    ([subprocess.TimeoutExpired]), or the child cannot be started
    ([OSError] and the like); the text is what [str(e)] gives. *)
Inductive Outcome :=
| Completed (rc : Z) (out err : string)
| TimedOut (msg : string)
| NotStarted (msg : string).

Record CompletedProcess := mkCompleted {
  returncode : Z;
  stdout : string;
  stderr : string
}.

(** The machine the program runs on: any type of states [Env] on which
    paths can be tested and commands run.  Running a command gives an
    outcome and the next state. *)
Class OS := {
  Env : Type;
  path_exists : string → Env → bool;
  path_is_file : string → Env → bool;
  spawn : Cmd → Env → Outcome * Env
}.

(** The state the wrappers act on: the machine, and the record of the
    calls made so far with their outcomes (the record is there for the
    statements; the program cannot read it). *)
Record Proc `{OS} := mkProc {
  env : Env;
  calls : list (Cmd * Outcome)
}.

Section Run.
Context `{OS}.

(** [subprocess.run(argv, cwd=..., timeout=...)]. *)
Definition run (c : Cmd) : M Proc CompletedProcess := λ s,
  let '(o, e) := spawn c (env s) in
  let s' := mkProc _ e (calls s ++ [(c, o)]) in
  match o with
  | Completed rc out err => (Ok (mkCompleted rc out err), s')
  | TimedOut msg => (Raise (TimeoutExpired msg), s')
  | NotStarted msg => (Raise (OtherException msg), s')
  end.

(** [Path(p).exists()] and [Path(p).is_file()]. *)
Definition exists_ (p : string) : M Proc bool := λ s,
  (Ok (path_exists p (env s)), s).
Definition is_file (p : string) : M Proc bool := λ s,
  (Ok (path_is_file p (env s)), s).
End Run.

(** [Path(p) / q], for a [p] that does not end with a separator. *)
Definition joinpath (p q : string) : string := p +:+ "/" +:+ q.

End Subprocess.
Export Subprocess (Cmd, mkCmd, Outcome(..), OS, Proc).

(* ===================================================================== *)
(** * core/git_manager.py *)
(* ===================================================================== *)

Module GitManager.

Inductive DirectoryStatus := DOES_NOT_EXIST | GIT_REPO | NON_GIT.

Record CommandResult := mkResult { success : bool; returncode : Z }.

(** The command lines. *)
Definition work_tree_cmd (path : string) : Cmd :=
  mkCmd ["git"; "rev-parse"; "--is-inside-work-tree"] (Some path) true 10.
Definition ls_remote_cmd (repo_url : string) : Cmd :=
  mkCmd ["git"; "ls-remote"; "--heads"; repo_url] None true 30.
Definition clone_cmd (repo_url target_path : string) : Cmd :=
  mkCmd ["git"; "clone"; repo_url; target_path] None false 300.
Definition set_url_cmd (repo_url target_path : string) : Cmd :=
  mkCmd ["git"; "remote"; "set-url"; "origin"; repo_url] (Some target_path) false 10.
Definition prune_cmd (target_path : string) : Cmd :=
  mkCmd ["git"; "remote"; "prune"; "origin"] (Some target_path) false 30.
Definition fetch_cmd (target_path : string) : Cmd :=
  mkCmd ["git"; "fetch"; "origin"; "--prune"] (Some target_path) false 300.
Definition checkout_cmd (branch target_path : string) : Cmd :=
  mkCmd ["git"; "checkout"; "-B"; branch; "origin/" +:+ branch] (Some target_path) false 60.
Definition head_cmd (target_path : string) : Cmd :=
  mkCmd ["git"; "rev-parse"; "--abbrev-ref"; "HEAD"] (Some target_path) true 10.
Definition remote_url_cmd (target_path : string) : Cmd :=
  mkCmd ["git"; "config"; "--get"; "remote.origin.url"] (Some target_path) true 10.
Definition submodule_cmd (target_path : string) : Cmd :=
  mkCmd ["git"; "submodule"; "update"; "--init"; "--recursive"] (Some target_path) false 300.

(** The body of the loop of [fetch_branches] for one line. *)
Definition branch_of_line (line : string) : list string :=
  if bool_decide (line = "") then []
  else match Py.split Py.TAB line with
       | [_; ref] => [Py.replace ref "refs/heads/" ""]
       | _ => []
       end.

Section Methods.
Context `{OS}.

Definition check_directory_status (path : string) : M Proc DirectoryStatus :=
  present ← Subprocess.exists_ path;
  if negb present then mret DOES_NOT_EXIST
  else
    result ← Subprocess.run (work_tree_cmd path);
    if Subprocess.returncode result =? 0 then mret GIT_REPO
    else mret NON_GIT.

Definition fetch_branches (repo_url : string) : M Proc (list string) :=
  try_except
    (result ← Subprocess.run (ls_remote_cmd repo_url);
     if negb (Subprocess.returncode result =? 0) then
       raise (GitError
                ("Failed to fetch branches from " +:+ repo_url +:+ Py.nl +:+
                 "Error: " +:+ Subprocess.stderr result +:+ Py.nl +:+
                 "Check your network connection and repository URL."))
     else
       let branches :=
         line ← Py.split Py.LF (Py.strip (Subprocess.stdout result));
         branch_of_line line in
       mret (Py.sorted branches))
    (λ e,
       match e with
       | TimeoutExpired _ =>
           raise (GitError
                    ("Timeout while fetching branches from " +:+ repo_url +:+ Py.nl +:+
                     "Check your network connection."))
       | _ => raise (GitError ("Failed to fetch branches: " +:+ Py.str_of_exn e))
       end).

Definition clone_repository (repo_url target_path : string) : M Proc CommandResult :=
  try_except
    (result ← Subprocess.run (clone_cmd repo_url target_path);
     if negb (Subprocess.returncode result =? 0) then
       raise (GitError
                ("Failed to clone repository (exit code: " +:+
                 Py.str_of_int (Subprocess.returncode result) +:+ ")"))
     else mret (mkResult true (Subprocess.returncode result)))
    (λ e,
       match e with
       | TimeoutExpired _ =>
           raise (GitError
                    ("Timeout while cloning " +:+ repo_url +:+ Py.nl +:+
                     "The repository might be too large or network is slow."))
       | _ => raise (GitError ("Failed to clone repository: " +:+ Py.str_of_exn e))
       end).

Definition change_remote (repo_url target_path : string) : M Proc CommandResult :=
  try_except
    (result ← Subprocess.run (set_url_cmd repo_url target_path);
     if negb (Subprocess.returncode result =? 0) then
       raise (GitError
                ("Failed to change remote URL (exit code: " +:+
                 Py.str_of_int (Subprocess.returncode result) +:+ ")"))
     else
       prune_result ← Subprocess.run (prune_cmd target_path);
       fetch_result ← Subprocess.run (fetch_cmd target_path);
       if negb (Subprocess.returncode fetch_result =? 0) then
         raise (GitError
                  ("Failed to fetch from new remote (exit code: " +:+
                   Py.str_of_int (Subprocess.returncode fetch_result) +:+ ")"))
       else mret (mkResult true 0))
    (λ e,
       match e with
       | TimeoutExpired _ => raise (GitError "Timeout while fetching from new remote")
       | _ => raise (GitError ("Failed to change remote: " +:+ Py.str_of_exn e))
       end).

Definition checkout_branch (branch target_path : string) : M Proc CommandResult :=
  try_except
    (result ← Subprocess.run (checkout_cmd branch target_path);
     if negb (Subprocess.returncode result =? 0) then
       raise (GitError
                ("Failed to checkout branch '" +:+ branch +:+ "' (exit code: " +:+
                 Py.str_of_int (Subprocess.returncode result) +:+ ")" +:+ Py.nl +:+
                 "Make sure the branch exists on the remote."))
     else mret (mkResult true (Subprocess.returncode result)))
    (λ e,
       match e with
       | TimeoutExpired _ =>
           raise (GitError ("Timeout while checking out branch '" +:+ branch +:+ "'"))
       | _ => raise (GitError ("Failed to checkout branch: " +:+ Py.str_of_exn e))
       end).

Definition get_current_branch (target_path : string) : M Proc (option string) :=
  try_except
    (result ← Subprocess.run (head_cmd target_path);
     if Subprocess.returncode result =? 0
     then mret (Some (Py.strip (Subprocess.stdout result)))
     else mret None)
    (λ _, mret None).

Definition get_current_remote (target_path : string) : M Proc (option string) :=
  try_except
    (result ← Subprocess.run (remote_url_cmd target_path);
     if Subprocess.returncode result =? 0 then
       let url := Py.strip (Subprocess.stdout result) in
       match Repository.validate_and_normalize_url url with
       | Some normalized => mret (Some (if bool_decide (normalized = "") then url else normalized))
       | None => mret (Some url)
       end
     else mret None)
    (λ _, mret None).

Definition update_submodules (target_path : string) : M Proc CommandResult :=
  try_except
    (result ← Subprocess.run (submodule_cmd target_path);
     if negb (Subprocess.returncode result =? 0) then
       raise (GitError
                ("Failed to update submodules (exit code: " +:+
                 Py.str_of_int (Subprocess.returncode result) +:+ ")"))
     else mret (mkResult true (Subprocess.returncode result)))
    (λ e,
       match e with
       | TimeoutExpired _ => raise (GitError "Timeout while updating submodules")
       | _ => raise (GitError ("Failed to update submodules: " +:+ Py.str_of_exn e))
       end).

End Methods.
End GitManager.

(* ===================================================================== *)
(** * core/build_manager.py *)
(* ===================================================================== *)

Module BuildManager.

Record BuildResult := mkResult { success : bool; returncode : Z }.

Definition build_cmd (target_path : string) : Cmd :=
  mkCmd ["./build"; "sbitx"] (Some target_path) false 900.

Definition clean_cmd (target_path : string) : Cmd :=
  mkCmd ["make"; "clean"] (Some target_path) false 60.

Section Methods.
Context `{OS}.

Definition run_build (target_path : string) : M Proc BuildResult :=
  let build_script := Subprocess.joinpath target_path "build" in
  present ← Subprocess.exists_ build_script;
  if negb present then
    raise (BuildError
             ("Build script not found at " +:+ build_script +:+ Py.nl +:+
              "Make sure you're in the correct sBitx directory."))
  else
    regular ← Subprocess.is_file build_script;
    if negb regular then
      raise (BuildError (build_script +:+ " is not a file"))
    else
      try_except
        (result ← Subprocess.run (build_cmd target_path);
         let success := Subprocess.returncode result =? 0 in
         mret (mkResult success (Subprocess.returncode result)))
        (λ e,
           match e with
           | TimeoutExpired _ =>
               raise (BuildError
                        ("Build timeout after 15 minutes" +:+ Py.nl +:+
                         "The build process is taking too long or may be stuck."))
           | _ => raise (BuildError ("Failed to run build: " +:+ Py.str_of_exn e))
           end).

(** The three tests read the file system and run nothing. *)
Definition check_build_prerequisites (target_path : string) : M Proc (bool * string) :=
  directory ← Subprocess.exists_ target_path;
  let issues :=
    if negb directory then ["Directory " +:+ target_path +:+ " does not exist"] else [] in
  let build_script := Subprocess.joinpath target_path "build" in
  script ← Subprocess.exists_ build_script;
  let issues :=
    issues ++ if negb script then ["Build script not found at " +:+ build_script] else [] in
  let makefile := Subprocess.joinpath target_path "Makefile" in
  rules ← Subprocess.exists_ makefile;
  let issues :=
    issues ++ if negb rules then ["Makefile not found at " +:+ makefile] else [] in
  if bool_decide (issues ≠ []) then mret (false, Py.join Py.nl issues)
  else mret (true, "All prerequisites met").

Definition clean_build (target_path : string) : M Proc BuildResult :=
  try_except
    (result ← Subprocess.run (clean_cmd target_path);
     mret (mkResult (Subprocess.returncode result =? 0) (Subprocess.returncode result)))
    (λ e,
       match e with
       | TimeoutExpired _ => raise (BuildError "Clean timeout after 60 seconds")
       | _ => raise (BuildError ("Failed to run clean: " +:+ Py.str_of_exn e))
       end).

End Methods.
End BuildManager.

(* ===================================================================== *)
(** * gui/main_window.py: the background worker *)
(* ===================================================================== *)

Module MainWindow.

Import GitManager.

Global Instance DirectoryStatus_eq_dec : EqDecision DirectoryStatus.
Proof. solve_decision. Defined.

Definition TARGET_PATH : string := "/home/pi/sbitx".

Section Methods.
Context `{OS}.

(** The part of the window the worker and the status refresh act on:
    the machine behind [self.git_manager] and [self.build_manager], the
    store behind [self.config_manager], the messages put on
    [self.task_queue] (oldest first), and the two tracking fields. *)
Record App := mkApp {
  proc : Proc;
  store : ConfigManager.Store;
  task_queue : list (string * string);
  current_repo_url : option string;
  current_branch_name : option string
}.

(** A method of [self.git_manager] or [self.build_manager]. *)
Definition on_proc {A} (m : M Proc A) : M App A := λ a,
  let '(r, p) := m (proc a) in
  (r, mkApp p (store a) (task_queue a) (current_repo_url a) (current_branch_name a)).

(** A method of [self.config_manager]. *)
Definition on_store {A} (m : M ConfigManager.Store A) : M App A := λ a,
  let '(r, c) := m (store a) in
  (r, mkApp (proc a) c (task_queue a) (current_repo_url a) (current_branch_name a)).

(** [self.task_queue.put(msg)]. *)
Definition queue_put (msg : string * string) : M App unit := λ a,
  (Ok (), mkApp (proc a) (store a) (task_queue a ++ [msg])
                (current_repo_url a) (current_branch_name a)).

Definition set_current (repo_url branch_name : option string) : M App unit := λ a,
  (Ok (), mkApp (proc a) (store a) (task_queue a) repo_url branch_name).

Definition detect_current_repo_branch : M App unit :=
  try_except
    (status ← on_proc (check_directory_status TARGET_PATH);
     if bool_decide (status = GIT_REPO) then
       remote ← on_proc (get_current_remote TARGET_PATH);
       branch ← on_proc (get_current_branch TARGET_PATH);
       set_current remote branch
     else set_current None None)
    (λ _, set_current None None).

Definition _checkout_and_build_thread (repo_url branch : string) : M App unit :=
  try_except
    (status ← on_proc (check_directory_status TARGET_PATH);
     if bool_decide (status = NON_GIT) then
       queue_put ("error",
                  TARGET_PATH +:+ " exists but is not a git repository." +:+ Py.nl +:+
                  "Please backup and remove the directory first.")
     else
       (if bool_decide (status = DOES_NOT_EXIST) then
          queue_put ("progress", "Cloning repository...");;
          on_proc (clone_repository repo_url TARGET_PATH)
        else
          queue_put ("progress", "Changing remote and fetching...");;
          on_proc (change_remote repo_url TARGET_PATH));;
       queue_put ("progress", "Checking out branch " +:+ branch +:+ "...");;
       on_proc (checkout_branch branch TARGET_PATH);;
       queue_put ("progress", "Updating submodules...");;
       on_proc (update_submodules TARGET_PATH);;
       queue_put ("progress", "Building sBitx... (this may take several minutes)");;
       build_result ← on_proc (BuildManager.run_build TARGET_PATH);
       if BuildManager.success build_result then
         on_store (ConfigManager.set_last_used repo_url branch);;
         queue_put ("build_success", "Build completed successfully!")
       else
         queue_put ("build_error",
                    "Build failed with exit code " +:+
                    Py.str_of_int (BuildManager.returncode build_result) +:+ "." +:+
                    Py.nl +:+ Py.nl +:+
                    "Check the terminal output for details."))
    (λ e,
       match e with
       | GitError msg => queue_put ("error", "Git error: " +:+ msg)
       | BuildError msg => queue_put ("error", "Build error: " +:+ msg)
       | _ => queue_put ("error", "Unexpected error: " +:+ Py.str_of_exn e)
       end).

End Methods.
End MainWindow.

(* ===================================================================== *)
(** * The vocabulary of the specification *)
(* ===================================================================== *)

(** How the specification reads what the program does: which external
    calls mutate the target directory, and which terminal state a message
    of the queue stands for. *)
Module Spec.

Definition argv_starts (c : Cmd) (l : list string) : bool :=
  bool_decide (take (length l) (Subprocess.argv c) = l).

Definition is_clone (c : Cmd) : bool := argv_starts c ["git"; "clone"].
Definition is_rewire (c : Cmd) : bool :=
  argv_starts c ["git"; "remote"; "set-url"]
  || argv_starts c ["git"; "remote"; "prune"]
  || argv_starts c ["git"; "fetch"].
Definition is_checkout (c : Cmd) : bool := argv_starts c ["git"; "checkout"].
Definition is_submodule_sync (c : Cmd) : bool := argv_starts c ["git"; "submodule"].
Definition is_build (c : Cmd) : bool := argv_starts c ["./build"].

Definition is_mutating (c : Cmd) : bool :=
  is_clone c || is_rewire c || is_checkout c || is_submodule_sync c || is_build c.

Inductive Classification :=
| Configuration | GitFailure | BuildInvocation | BuildFailed | Unexpected.

Inductive Terminal :=
| Succeeded
| Failed (c : Classification).

(** The terminal state a message stands for; a progress message stands
    for none.  An ['error'] message is classified by the prefix the
    worker gives it; the one without a prefix is the refusal of a
    foreign directory. *)
Definition terminal_of (msg : string * string) : option Terminal :=
  let '(msg_type, msg_data) := msg in
  if String.eqb msg_type "build_success" then Some Succeeded
  else if String.eqb msg_type "build_error" then Some (Failed BuildFailed)
  else if String.eqb msg_type "error" then
    if Py.startswith msg_data "Git error: " then Some (Failed GitFailure)
    else if Py.startswith msg_data "Build error: " then Some (Failed BuildInvocation)
    else if Py.startswith msg_data "Unexpected error: " then Some (Failed Unexpected)
    else Some (Failed Configuration)
  else None.

(** The messages of the worker. *)
Definition refusal : string * string :=
  ("error",
   MainWindow.TARGET_PATH +:+ " exists but is not a git repository." +:+ Py.nl +:+
   "Please backup and remove the directory first.").

Definition progress_messages (cloned : bool) (branch : string) : list (string * string) :=
  [("progress",
    if cloned then "Cloning repository..." else "Changing remote and fetching...");
   ("progress", "Checking out branch " +:+ branch +:+ "...");
   ("progress", "Updating submodules...");
   ("progress", "Building sBitx... (this may take several minutes)")].

Definition build_success : string * string :=
  ("build_success", "Build completed successfully!").

Definition build_error (rc : Z) : string * string :=
  ("build_error",
   "Build failed with exit code " +:+ Py.str_of_int rc +:+ "." +:+ Py.nl +:+ Py.nl +:+
   "Check the terminal output for details.").

Definition unexpected_error (e : Exn) : string * string :=
  ("error", "Unexpected error: " +:+ Py.str_of_exn e).

(** The state a run of the worker ends in. *)
Definition run_worker `{OS} (repo_url branch : string) (a : MainWindow.App)
  : MainWindow.App :=
  snd (MainWindow._checkout_and_build_thread repo_url branch a).

(** The file a configuration that does not parse is moved to. *)
Definition backup_file (s : ConfigManager.Store) : string :=
  ConfigManager.config_file s +:+ ".backup".

(** The configuration a first start writes. *)
Definition default_config (now : string) : gmap string Json :=
  <["repositories" :=
      JList [JDict (Repository.to_dict
                      (Repository.mk (JStr ConfigManager.DEFAULT_URL)
                                     (JStr "drexjj/sbitx") (JStr now)))]]>
    (<["default_repositories" := JList [JStr ConfigManager.DEFAULT_URL]]>
       (<["last_used_repo" := JStr ""]>
          (<["last_used_branch" := JStr ""]> ∅))).

(** The exceptions that can leave the configuration store. *)
Definition store_exn (e : Exn) : Prop :=
  match e with
  | ConfigError _ | OtherException _ => True
  | _ => False
  end.

(** A string that [lstrip] leaves alone: empty, or starting with a
    character that is not white space. *)
Definition lstripped (s : string) : Prop :=
  match s with
  | "" => True
  | String c _ => Py.isspace c = false
  end.

(** A non-empty run of characters of a class, and a text at which such
    a run cannot go on. *)
Fixpoint all_in (cls : ascii → bool) (s : string) : bool :=
  match s with
  | "" => true
  | String c s' => cls c && all_in cls s'
  end.

Definition run_of (cls : ascii → bool) (m : string) : Prop :=
  m ≠ "" ∧ all_in cls m = true.

Definition stops (cls : ascii → bool) (r : string) : Prop :=
  match r with
  | "" => True
  | String c _ => cls c = false
  end.

(** The two canonical forms of the URL of [owner/repo]. *)
Definition https_form (g : string) : string := "https://github.com/" +:+ g +:+ ".git".
Definition ssh_form (g : string) : string := "git@github.com:" +:+ g +:+ ".git".

(** [owner/repo]: two non-empty runs of word characters and hyphens. *)
Definition owner_repo_name (g : string) : Prop :=
  ∃ o p, run_of Re.word_or_hyphen o ∧ run_of Re.word_or_hyphen p ∧ g = o +:+ "/" +:+ p.

(** The table of the URLs of [owner/repo]: a text, and its normal
    form. *)
Definition accepted_forms (g : string) : list (string * string) :=
  [("https://github.com/" +:+ g, https_form g);
   ("https://github.com/" +:+ g +:+ ".git", https_form g);
   ("git@github.com:" +:+ g, ssh_form g);
   ("git@github.com:" +:+ g +:+ ".git", ssh_form g);
   (g, https_form g);
   ("github.com/" +:+ g, https_form g)].

(** Two states of the store that differ at most in the configuration
    file and in its backup. *)
Definition same_but_config (s s' : ConfigManager.Store) : Prop :=
  ConfigManager.config_dir s' = ConfigManager.config_dir s ∧
  ConfigManager.write_error s' = ConfigManager.write_error s ∧
  ConfigManager.now s' = ConfigManager.now s ∧
  ∀ path, path ≠ ConfigManager.config_file s → path ≠ backup_file s →
          ConfigManager.files s' !! path = ConfigManager.files s !! path.

(** The value [save_repositories] stores for a list of repositories. *)
Definition entries (repositories : list Repository.t) : Json :=
  JList ((λ r, JDict (Repository.to_dict r)) <$> repositories).

(** The listing [git ls-remote --heads] prints for a list of pairs of a
    hash and a branch name: one line for each, ended by a newline.  A pair
    is well formed when the hash is not empty, neither part has white
    space, and the name does not contain [refs/heads/]. *)
Definition no_space (s : string) : Prop := all_in (λ c, negb (Py.isspace c)) s = true.

Definition ls_remote_line (entry : string * string) : string :=
  entry.1 +:+ String Py.TAB ("refs/heads/" +:+ entry.2).

Fixpoint ls_remote_output (entries : list (string * string)) : string :=
  match entries with
  | [] => ""
  | entry :: entries' => ls_remote_line entry +:+ Py.nl +:+ ls_remote_output entries'
  end.

Definition well_formed (entry : string * string) : Prop :=
  entry.1 ≠ "" ∧ no_space entry.1 ∧ no_space entry.2 ∧
  Py.contains entry.2 "refs/heads/" = false.

(** Whether a command has exited, and whether it has exited with
    status 0. *)
Definition exited (o : Outcome) : bool :=
  match o with
  | Completed _ _ _ => true
  | _ => false
  end.

Definition exited_zero (o : Outcome) : bool :=
  match o with
  | Completed 0 _ _ => true
  | _ => false
  end.

(** What a wrapper that runs the single command [c] gives: a successful
    result when [c] exits with status 0, [GitError] otherwise. *)
Definition one_command `{OS} (c : Cmd) (p : Proc)
    (result : Res GitManager.CommandResult * Proc) : Prop :=
  let '(o, e) := Subprocess.spawn c (Subprocess.env p) in
  let p' := Subprocess.mkProc _ e (Subprocess.calls p ++ [(c, o)]) in
  match o with
  | Completed 0 _ _ => result = (Ok (GitManager.mkResult true 0), p')
  | _ => ∃ msg, result = (Raise (GitError msg), p')
  end.

(** The commands of git that change the target directory. *)
Definition is_git_step (c : Cmd) : bool :=
  is_clone c || is_rewire c || is_checkout c || is_submodule_sync c.

(** How a run of the worker ends: its last external call, and the message
    that closes it. *)
Inductive ending : option (Cmd * Outcome) → string * string → Prop :=
| refused rc out err :
    rc ≠ 0 →
    ending (Some (GitManager.work_tree_cmd MainWindow.TARGET_PATH, Completed rc out err))
           refusal
| probe_raised o msg :
    exited o = false →
    ending (Some (GitManager.work_tree_cmd MainWindow.TARGET_PATH, o))
           ("error", "Unexpected error: " +:+ msg)
| git_failed c o msg :
    is_git_step c = true → exited_zero o = false →
    ending (Some (c, o)) ("error", "Git error: " +:+ msg)
| no_build_script out err msg :
    ending (Some (GitManager.submodule_cmd MainWindow.TARGET_PATH, Completed 0 out err))
           ("error", "Build error: " +:+ msg)
| build_raised o msg :
    exited o = false →
    ending (Some (BuildManager.build_cmd MainWindow.TARGET_PATH, o))
           ("error", "Build error: " +:+ msg)
| build_failed rc out err :
    rc ≠ 0 →
    ending (Some (BuildManager.build_cmd MainWindow.TARGET_PATH, Completed rc out err))
           (build_error rc)
| build_succeeded out err :
    ending (Some (BuildManager.build_cmd MainWindow.TARGET_PATH, Completed 0 out err))
           build_success
| not_recorded out err msg :
    ending (Some (BuildManager.build_cmd MainWindow.TARGET_PATH, Completed 0 out err))
           ("error", "Unexpected error: " +:+ msg).

End Spec.

(* ===================================================================== *)
(** * A small machine to run the program on *)
(* ===================================================================== *)

(** A machine whose commands answer from a table (a command that is not
    in the table exits with status 0 and prints nothing); a successful
    [git clone] creates the target directory with a build script in it. *)
Module Sim.

Record Machine := mk {
  dirs : list string;
  regular : list string;
  answers : list (list string * Outcome)
}.

Definition answer (m : Machine) (c : Cmd) : Outcome :=
  default (Completed 0 "" "")
          ((λ e, snd (snd e)) <$>
             list_find (λ e, fst e = Subprocess.argv c) (answers m)).

Definition step (c : Cmd) (m : Machine) : Outcome * Machine :=
  let o := answer m c in
  match Subprocess.argv c, o with
  | ["git"; "clone"; _; target], Completed 0 _ _ =>
      (o, mk (target :: dirs m)
             (Subprocess.joinpath target "build" :: regular m)
             (answers m))
  | _, _ => (o, m)
  end.

Definition os : OS := {|
  Subprocess.Env := Machine;
  Subprocess.path_exists p m := bool_decide (p ∈ dirs m ∨ p ∈ regular m);
  Subprocess.path_is_file p m := bool_decide (p ∈ regular m);
  Subprocess.spawn := step
|}.

(** A machine in its initial state, with no call recorded. *)
Definition boot (m : Machine) : @Subprocess.Proc os := Subprocess.mkProc os m [].

(** A configuration store holding the given files. *)
Definition disk (files : gmap string ConfigManager.Content) : ConfigManager.Store :=
  ConfigManager.mkStore "/opt/manager/config" files None "2024-01-01T00:00:00".

(** The same store on a file system mounted read-only. *)
Definition readonly_disk (files : gmap string ConfigManager.Content)
  : ConfigManager.Store :=
  ConfigManager.mkStore "/opt/manager/config" files
                        (Some "[Errno 30] Read-only file system")
                        "2024-01-01T00:00:00".

Definition config_path : string := "/opt/manager/config/repositories.json".

Definition app (m : Machine) (store : ConfigManager.Store) : @MainWindow.App os :=
  MainWindow.mkApp (boot m) store [] None None.

(** A repository to ask for. *)
Definition octo : string := "https://github.com/octo/cat.git".

(** The listing of a remote whose only branch is [feature/refs/heads/x],
    and the listing of the scenario of the specification. *)
Definition nested_listing : string :=
  "abc123" +:+ String Py.TAB "refs/heads/feature/refs/heads/x" +:+ Py.nl.

Definition two_branches : string :=
  "abc123" +:+ String Py.TAB "refs/heads/main" +:+ Py.nl +:+
  "def456" +:+ String Py.TAB "refs/heads/dev".

(** A machine on which [git ls-remote] prints the given listing. *)
Definition remote (listing : string) : @Subprocess.Proc os :=
  boot (mk [] [] [(["git"; "ls-remote"; "--heads"; octo], Completed 0 listing "")]).

(** A target directory in which the work-tree check runs out of time. *)
Definition slow_probe : Machine :=
  mk [MainWindow.TARGET_PATH] []
     [(["git"; "rev-parse"; "--is-inside-work-tree"],
       TimedOut "timed out after 10 seconds")].

(** A target directory that is not a repository. *)
Definition foreign : Machine :=
  mk [MainWindow.TARGET_PATH] []
     [(["git"; "rev-parse"; "--is-inside-work-tree"],
       Completed 128 "" "fatal: not a git repository (or any of the parent directories): .git")].

(** A repository in which pruning runs out of time. *)
Definition slow_prune : Machine :=
  mk [MainWindow.TARGET_PATH] []
     [(["git"; "remote"; "prune"; "origin"], TimedOut "timed out after 30 seconds")].

(** The configuration directory after a first start. *)
Definition first_start : gmap string ConfigManager.Content :=
  {[ config_path := ConfigManager.Document (Spec.default_config "2023-12-31T12:00:00") ]}.

(** A machine on which every command succeeds, with a configuration
    directory that can be written, and with one that cannot. *)
Definition writable_app : @MainWindow.App os := app (mk [] [] []) (disk first_start).
Definition readonly_app : @MainWindow.App os := app (mk [] [] []) (readonly_disk first_start).

(** A configuration file that does not parse. *)
Definition parse_error : string := "Expecting value: line 1 column 1 (char 0)".
Definition corrupted : ConfigManager.Store :=
  disk {[ config_path := ConfigManager.Garbage parse_error ]}.

(** A repository that is not a default one, and a configuration that
    lists it after the default one. *)
Definition default_repository : Repository.t :=
  Repository.mk (JStr ConfigManager.DEFAULT_URL) (JStr "drexjj/sbitx")
                (JStr "2023-12-31T12:00:00").

Definition octo_repository : Repository.t :=
  Repository.mk (JStr octo) (JStr "octo/cat") (JStr "2024-01-01T00:00:00").

Definition with_octo : gmap string ConfigManager.Content :=
  {[ config_path :=
       ConfigManager.Document
         (<["repositories" := Spec.entries [default_repository; octo_repository]]>
            (Spec.default_config "2023-12-31T12:00:00")) ]}.

(** A configuration written by hand, with no list of default
    repositories. *)
Definition bare_config : gmap string Json :=
  {[ "repositories" := Spec.entries [octo_repository] ]}.

(** The branches of the scenario, as pairs of a hash and a name. *)
Definition branch_entries : list (string * string) :=
  [("abc123", "main"); ("def456", "dev")].

(** A work tree whose origin is given in the SSH form, without the
    [.git] suffix. *)
Definition ssh_origin : Machine :=
  mk [MainWindow.TARGET_PATH] []
     [(["git"; "config"; "--get"; "remote.origin.url"],
       Completed 0 ("git@github.com:octo/cat" +:+ Py.nl) "")].

End Sim.

(* ===================================================================== *)
(** * Part II: properties *)
(* ===================================================================== *)

Import Spec.

(** Unfolding the monad. *)
Ltac unfold_monad :=
  unfold mbind, M_bind, mret, M_ret, try_except, raise, of_res, get, put in *.

(* --------------------------------------------------------------------- *)
(** ** Strings *)
(* --------------------------------------------------------------------- *)

Section StringFacts.
Implicit Types (s t r a : string) (c : ascii).

Lemma app_cons c s t : String c s +:+ t = String c (s +:+ t).
Proof. reflexivity. Qed.

Lemma app_empty_l s : "" +:+ s = s.
Proof. reflexivity. Qed.

Lemma app_empty_r s : s +:+ "" = s.
Proof. induction s as [|c s IH]; [done|]. by rewrite app_cons, IH. Qed.

Lemma app_assoc_s s t r : (s +:+ t) +:+ r = s +:+ (t +:+ r).
Proof. induction s as [|c s IH]; [done|]. by rewrite !app_cons, IH. Qed.

Lemma app_eq_empty s t : s +:+ t = "" → s = "" ∧ t = "".
Proof. destruct s; [done|]. by rewrite app_cons. Qed.

Lemma lstrip_lstripped s : lstripped (Py.lstrip s).
Proof.
  induction s as [|c s IH]; simpl; [done|].
  destruct (Py.isspace c) eqn:E; [done|]. exact E.
Qed.

Lemma lstrip_id s : lstripped s → Py.lstrip s = s.
Proof. destruct s as [|c s]; simpl; [done|]. by intros ->. Qed.

Lemma rstrip_lstripped s : lstripped s → lstripped (Py.rstrip s).
Proof.
  destruct s as [|c s]; simpl; [done|]. intros E.
  destruct (Py.rstrip s); [by rewrite E|done].
Qed.

Lemma rstrip_idem s : Py.rstrip (Py.rstrip s) = Py.rstrip s.
Proof.
  induction s as [|c s IH]; simpl; [done|].
  destruct (Py.rstrip s) as [|d r] eqn:E.
  - destruct (Py.isspace c) eqn:Ec; simpl; [done|]. by rewrite Ec.
  - simpl in *. by rewrite IH.
Qed.

Lemma strip_idem s : Py.strip (Py.strip s) = Py.strip s.
Proof.
  unfold Py.strip.
  rewrite (lstrip_id (Py.rstrip _)); [apply rstrip_idem|].
  apply rstrip_lstripped, lstrip_lstripped.
Qed.

(** The last character of a stripped string is not white space. *)
Lemma rstrip_last s a c : Py.rstrip s = a +:+ String c "" → Py.isspace c = false.
Proof.
  revert a. induction s as [|d s IH]; intros a; simpl.
  - destruct a; discriminate.
  - destruct (Py.rstrip s) as [|e r] eqn:E.
    + destruct (Py.isspace d) eqn:Ed.
      * destruct a; discriminate.
      * destruct a as [|d' [|? ?]]; intros [= ]; by subst.
    + destruct a as [|d' a]; [discriminate|].
      rewrite app_cons. intros [= -> Hr]. by eapply IH.
Qed.

Lemma strip_last s a c : Py.strip s = a +:+ String c "" → Py.isspace c = false.
Proof. apply rstrip_last. Qed.

Lemma rstrip_app s t : Py.rstrip t ≠ "" → Py.rstrip (s +:+ t) = s +:+ Py.rstrip t.
Proof.
  intros Ht. induction s as [|c s IH]; [done|].
  rewrite !app_cons. simpl. rewrite IH.
  destruct (s +:+ Py.rstrip t) eqn:E; [|done].
  by apply app_eq_empty in E as [_ ?].
Qed.

(** A string that starts and ends with characters that are not white
    space is its own [strip]. *)
Lemma strip_id c s t :
  Py.isspace c = false → Py.rstrip t = t → t ≠ "" →
  Py.strip (String c s +:+ t) = String c s +:+ t.
Proof.
  intros Hc Ht Hne. unfold Py.strip.
  rewrite lstrip_id by (by rewrite app_cons).
  rewrite rstrip_app; by rewrite Ht.
Qed.

Lemma strip_canonical c s t :
  Py.isspace c = false →
  Py.strip (String c s +:+ t +:+ ".git") = String c s +:+ t +:+ ".git".
Proof.
  intros Hc. apply strip_id; [done|by rewrite rstrip_app|].
  by intros [_ ?]%app_eq_empty.
Qed.

Lemma endswith_app s t : Py.endswith (s +:+ t) t = true.
Proof.
  induction s as [|c s IH].
  - rewrite app_empty_l. destruct t; cbn -[String.eqb]; by rewrite String.eqb_refl.
  - rewrite app_cons. cbn -[String.eqb]. rewrite IH. apply orb_true_r.
Qed.

End StringFacts.

(* --------------------------------------------------------------------- *)
(** ** The matcher *)
(* --------------------------------------------------------------------- *)

Section RegexFacts.
Implicit Types (s t m r p : string) (c : ascii) (cls : ascii → bool).

Lemma drop_prefix_app p r : Re.drop_prefix p (p +:+ r) = Some r.
Proof.
  induction p as [|a p IH]; [by destruct r|].
  rewrite app_cons. simpl. rewrite Ascii.eqb_refl. apply IH.
Qed.

Lemma drop_prefix_Some p s r : Re.drop_prefix p s = Some r → s = p +:+ r.
Proof.
  revert s. induction p as [|a p IH]; intros s; simpl.
  - destruct s; by intros [= <-].
  - destruct s as [|b s]; [done|].
    destruct (Ascii.eqb a b) eqn:E; [|done].
    apply Ascii.eqb_eq in E as ->. intros ->%IH. by rewrite app_cons.
Qed.

Lemma lit_app p r : Re.lit p (p +:+ r) = [(p, r)].
Proof. unfold Re.lit. by rewrite drop_prefix_app. Qed.

Lemma elem_of_lit p s m r : (m, r) ∈ Re.lit p s → m = p ∧ s = p +:+ r.
Proof.
  unfold Re.lit. destruct (Re.drop_prefix p s) eqn:E.
  - intros [= -> ->]%list_elem_of_singleton. by apply drop_prefix_Some in E.
  - by intros ?%not_elem_of_nil.
Qed.

(** Every way [[...]+] matches takes a non-empty run of the class. *)
Lemma elem_of_plus cls s m r : (m, r) ∈ Re.plus cls s → run_of cls m ∧ s = m +:+ r.
Proof.
  revert m. induction s as [|c s IH]; intros m; simpl.
  - by intros ?%not_elem_of_nil.
  - destruct (cls c) eqn:Ec; [|by intros ?%not_elem_of_nil].
    rewrite elem_of_app, list_elem_of_fmap, list_elem_of_singleton.
    intros [([m' r'] & [= -> ->] & Hin)|[= -> ->]].
    + apply IH in Hin as [[_ Hall] ->]. repeat split; [done|]. simpl.
      by rewrite Ec, Hall.
    + repeat split; [done|]. simpl. by rewrite Ec.
Qed.

(** The first way it tries is the whole run. *)
Lemma plus_head cls m r :
  run_of cls m → stops cls r → ∃ l, Re.plus cls (m +:+ r) = (m, r) :: l.
Proof.
  intros [Hne Hall] Hr. induction m as [|c m IH]; [done|].
  simpl in Hall. apply andb_prop in Hall as [Hc Hall].
  rewrite app_cons. simpl. rewrite Hc.
  destruct m as [|d m].
  - rewrite app_empty_l. destruct r as [|e r]; [by eexists|].
    simpl in *. rewrite Hr. by eexists.
  - destruct IH as [l ->]; [done..|]. by eexists.
Qed.

Lemma match_elem_of {A} (P : string → list A) s (g : A) :
  Re.match_ P s = Some g → g ∈ P s.
Proof. unfold Re.match_. destruct (P s); intros [= ->]. left. Qed.

Lemma match_head {A} (P : string → list A) s (g : A) l :
  P s = g :: l → Re.match_ P s = Some g.
Proof. unfold Re.match_. by intros ->. Qed.

Lemma elem_of_opt P s (x : option string) r :
  (x, r) ∈ Re.opt P s → (x = None ∧ r = s) ∨ ∃ m, x = Some m ∧ (m, r) ∈ P s.
Proof.
  unfold Re.opt. rewrite elem_of_app, list_elem_of_fmap, list_elem_of_singleton.
  intros [([m r'] & [= -> ->] & Hin)|[= -> ->]]; [right; eauto|by left].
Qed.

Lemma elem_of_eol s : () ∈ Re.eol s → s = "" ∨ s = Py.nl.
Proof.
  unfold Re.eol. case_bool_decide; [done|]. by intros ?%not_elem_of_nil.
Qed.

End RegexFacts.

(* --------------------------------------------------------------------- *)
(** ** models/repository.py: the normalisation of URLs *)
(* --------------------------------------------------------------------- *)

Section NormalizeFacts.
Import Repository.
Implicit Types (s t m r p o g x y : string).

Local Abbreviation woh := Re.word_or_hyphen.

Lemma slash_stops r : stops woh ("/" +:+ r).
Proof. reflexivity. Qed.

Lemma elem_of_owner_repo s g r :
  (g, r) ∈ owner_repo s →
  ∃ o p, run_of woh o ∧ run_of woh p ∧ g = o +:+ "/" +:+ p ∧ s = g +:+ r.
Proof.
  unfold owner_repo, Re.seq.
  intros ([o r1] & Hg & [Ho ->]%elem_of_plus)%list_elem_of_bind.
  apply list_elem_of_bind in Hg as ([m2 r2] & Hg & Hm).
  apply list_elem_of_singleton in Hg as [= -> ->].
  apply list_elem_of_bind in Hm as ([sl r3] & Hm & [-> ->]%elem_of_lit).
  apply list_elem_of_bind in Hm as ([p r4] & Hm & [Hp ->]%elem_of_plus).
  apply list_elem_of_singleton in Hm as [= -> ->].
  exists o, p. repeat split; try done; try apply Ho; try apply Hp.
  by rewrite !app_assoc_s.
Qed.

Lemma owner_repo_head o p r :
  run_of woh o → run_of woh p → stops woh r →
  ∃ l, owner_repo (o +:+ "/" +:+ p +:+ r) = (o +:+ "/" +:+ p, r) :: l.
Proof.
  intros Ho Hp Hr. unfold owner_repo, Re.seq.
  destruct (plus_head _ o ("/" +:+ p +:+ r) Ho (slash_stops _)) as [l1 ->].
  destruct (plus_head _ p r Hp Hr) as [l2 E2].
  simpl. rewrite app_empty_l, E2. simpl. by eexists.
Qed.

(** The text a pattern of the shape [^prefix([\w-]+/[\w-]+)(\.git)?$]
    accepts. *)
Lemma elem_of_url_pattern (prefix : string) s g :
  g ∈ ('(_, r1) ← Re.lit prefix s;
       '(g1, r2) ← owner_repo r1;
       '(_, r3) ← Re.opt (Re.lit ".git") r2;
       _ ← Re.eol r3;
       [g1]) →
  ∃ o p suffix tail,
    run_of woh o ∧ run_of woh p ∧ g = o +:+ "/" +:+ p ∧
    s = prefix +:+ g +:+ suffix +:+ tail ∧
    (suffix = "" ∨ suffix = ".git") ∧ (tail = "" ∨ tail = Py.nl).
Proof.
  intros ([m1 r1] & Hg & [-> ->]%elem_of_lit)%list_elem_of_bind.
  apply list_elem_of_bind in Hg as ([g1 r2] & Hg & Hor).
  apply elem_of_owner_repo in Hor as (o & p & Ho & Hp & -> & ->).
  apply list_elem_of_bind in Hg as ([g2 r3] & Hg & Hopt).
  apply list_elem_of_bind in Hg as ([] & Hg & Heol%elem_of_eol).
  apply list_elem_of_singleton in Hg as ->.
  exists o, p.
  apply elem_of_opt in Hopt as [[-> ->]|(m & -> & [-> ->]%elem_of_lit)].
  - exists "", r2. split_and!; auto.
  - exists ".git", r3. split_and!; auto.
Qed.

(** Such a pattern accepts the canonical form, and reads [owner/repo] in
    it. *)
Lemma url_pattern_canonical (prefix : string) o p :
  run_of woh o → run_of woh p →
  ∃ l, ('(_, r1) ← Re.lit prefix (prefix +:+ o +:+ "/" +:+ p +:+ ".git");
        '(g1, r2) ← owner_repo r1;
        '(_, r3) ← Re.opt (Re.lit ".git") r2;
        _ ← Re.eol r3;
        [g1]) = (o +:+ "/" +:+ p) :: l.
Proof.
  intros Ho Hp. rewrite lit_app.
  destruct (owner_repo_head o p ".git" Ho Hp) as [l E]; [done|].
  simpl. rewrite E. simpl. by eexists.
Qed.

Lemma elem_of_short_pattern s g :
  g ∈ short_pattern s → ∃ o p, run_of woh o ∧ run_of woh p ∧ g = o +:+ "/" +:+ p.
Proof.
  unfold short_pattern.
  intros ([g1 r1] & Hg & _)%list_elem_of_bind.
  apply list_elem_of_bind in Hg as ([g2 r2] & Hg & Hor).
  apply elem_of_owner_repo in Hor as (o & p & Ho & Hp & -> & ->).
  apply list_elem_of_bind in Hg as ([] & Hg & _).
  apply list_elem_of_singleton in Hg as ->. eauto.
Qed.

(** The two canonical forms are fixed points of the normalisation. *)
Lemma normalize_https_canonical o p :
  run_of woh o → run_of woh p →
  validate_and_normalize_url ("https://github.com/" +:+ (o +:+ "/" +:+ p) +:+ ".git")
  = Some ("https://github.com/" +:+ (o +:+ "/" +:+ p) +:+ ".git").
Proof.
  intros Ho Hp. unfold validate_and_normalize_url.
  rewrite (strip_canonical "h" "ttps://github.com/") by done.
  change (String "h" "ttps://github.com/") with "https://github.com/".
  destruct (url_pattern_canonical "https://github.com/" o p Ho Hp) as [l E].
  rewrite !app_assoc_s.
  rewrite (match_head https_pattern _ _ _ E). by rewrite !app_assoc_s.
Qed.

Lemma normalize_ssh_canonical o p :
  run_of woh o → run_of woh p →
  validate_and_normalize_url ("git@github.com:" +:+ (o +:+ "/" +:+ p) +:+ ".git")
  = Some ("git@github.com:" +:+ (o +:+ "/" +:+ p) +:+ ".git").
Proof.
  intros Ho Hp. unfold validate_and_normalize_url.
  rewrite (strip_canonical "g" "it@github.com:") by done.
  change (String "g" "it@github.com:") with "git@github.com:".
  destruct (url_pattern_canonical "git@github.com:" o p Ho Hp) as [l E].
  assert (Re.match_ https_pattern ("git@github.com:" +:+ (o +:+ "/" +:+ p) +:+ ".git") = None)
    as -> by done.
  rewrite <- (app_assoc_s "git@github.com:"), endswith_app.
  rewrite !app_assoc_s.
  by rewrite (match_head ssh_pattern _ _ _ E).
Qed.

(** A normalised URL is never the empty string. *)
Lemma normalized_not_empty x y : validate_and_normalize_url x = Some y → y ≠ "".
Proof.
  unfold validate_and_normalize_url.
  destruct (Re.match_ https_pattern _); [by intros [= <-]|].
  destruct (Re.match_ ssh_pattern _) as [g|] eqn:Hs.
  - unfold Re.match_, ssh_pattern, Re.lit in Hs.
    destruct (Re.drop_prefix _ _) as [r|] eqn:Hd; [|done].
    destruct (Py.strip x) as [|c u]; [done|].
    destruct (Py.endswith _ _); by intros [= <-].
  - destruct (Re.match_ short_pattern _); by intros [= <-].
Qed.

(** C7. Whenever [validate_and_normalize_url] accepts a string [x] and
    returns [y], it accepts [y] and returns [y] again: the normalisation is
    idempotent on every input it does not reject. *)
Theorem normalize_idempotent x y :
  validate_and_normalize_url x = Some y → validate_and_normalize_url y = Some y.
Proof.
  unfold validate_and_normalize_url at 1.
  remember (Py.strip x) as u eqn:Hu.
  destruct (Re.match_ https_pattern u) as [base|] eqn:Hh.
  { intros [= <-].
    apply match_elem_of, elem_of_url_pattern in Hh as (o & p & _ & _ & Ho & Hp & -> & _).
    by apply normalize_https_canonical. }
  destruct (Re.match_ ssh_pattern u) as [g|] eqn:Hs.
  - destruct (Py.endswith u ".git") eqn:He; intros [= <-].
    + unfold validate_and_normalize_url.
      rewrite Hu, strip_idem, <- Hu. by rewrite Hh, Hs, He.
    + apply match_elem_of, elem_of_url_pattern in Hs
        as (o & p & suffix & tail & Ho & Hp & -> & Hshape & Hsuffix & Htail).
      destruct Htail as [->| ->].
      2:{ rewrite Hu, <- 2!app_assoc_s in Hshape.
          by apply strip_last in Hshape. }
      destruct Hsuffix as [->| ->].
      2:{ rewrite app_empty_r, <- app_assoc_s in Hshape.
          by rewrite Hshape, endswith_app in He. }
      rewrite Hshape, !app_empty_r.
      rewrite (app_assoc_s "git@github.com:").
      by apply normalize_ssh_canonical.
  - destruct (Re.match_ short_pattern u) as [g|] eqn:Hp; intros [= <-].
    apply match_elem_of, elem_of_short_pattern in Hp as (o & p & Ho & Hp & ->).
    by apply normalize_https_canonical.
Qed.

(** An input of the short form, with white space around it. *)
Lemma normalize_idempotent_witness :
  validate_and_normalize_url "  github.com/octo/cat " = Some "https://github.com/octo/cat.git" ∧
  validate_and_normalize_url "https://github.com/octo/cat.git"
  = Some "https://github.com/octo/cat.git".
Proof.
  split; [reflexivity|].
  apply (normalize_idempotent "  github.com/octo/cat "). reflexivity.
Defined.

(** The scenarios of the specification. *)
Example normalize_short : validate_and_normalize_url "octo/cat" = Some "https://github.com/octo/cat.git".
Proof. reflexivity. Qed.

Example normalize_ssh :
  validate_and_normalize_url "git@github.com:octo/cat" = Some "git@github.com:octo/cat.git".
Proof. reflexivity. Qed.

Example normalize_invalid :
  validate_and_normalize_url "not a url" = None ∧
  validate_and_normalize_url "owner/" = None ∧
  validate_and_normalize_url "http://notgithub.com/a/b" = None.
Proof. by repeat split. Qed.

End NormalizeFacts.

(* --------------------------------------------------------------------- *)
(** ** core/config_manager.py *)
(* --------------------------------------------------------------------- *)

Section Store.
Import ConfigManager.
Implicit Types (s : Store) (config : gmap string Json) (url : string).

Lemma save_config_cases config s :
  save_config config s =
  match write_error s with
  | Some msg => (Raise (ConfigError ("Failed to save config: " +:+ msg)), s)
  | None => (Ok (), set_files (<[config_file s := Document config]> (files s)) s)
  end.
Proof.
  unfold save_config, json_dump. unfold_monad. by destruct (write_error s).
Qed.

Lemma create_default_config_cases s :
  _create_default_config s =
  match write_error s with
  | Some msg => (Raise (ConfigError ("Failed to save config: " +:+ msg)), s)
  | None =>
      (Ok (default_config (now s)),
       set_files (<[config_file s := Document (default_config (now s))]> (files s)) s)
  end.
Proof.
  unfold _create_default_config. unfold_monad.
  change (Repository.create_new (now s) "drexjj/sbitx")
    with (Some (Repository.mk (JStr DEFAULT_URL) (JStr "drexjj/sbitx") (JStr (now s)))).
  fold (default_config (now s)).
  rewrite save_config_cases. by destruct (write_error s).
Qed.

(** What [load_config] does, by what the configuration file holds. *)
Lemma load_config_cases s :
  load_config s =
  match files s !! config_file s with
  | None => _create_default_config s
  | Some (Garbage msg) =>
      match write_error s with
      | Some err => (Raise (OtherException err), s)
      | None =>
          (Raise (ConfigError
                    ("Config file is corrupted: " +:+ msg +:+ Py.nl +:+
                     "Backup saved to: " +:+ backup_file s +:+ Py.nl +:+
                     "Creating new config...")),
           set_files (<[backup_file s := Garbage msg]> (delete (config_file s) (files s))) s)
      end
  | Some (Document config) =>
      match config !! "default_repositories" with
      | Some _ => (Ok config, s)
      | None =>
          let config' := <["default_repositories" := JList [JStr DEFAULT_URL]]> config in
          match write_error s with
          | Some err =>
              (Raise (ConfigError ("Failed to load config: " +:+
                                   "Failed to save config: " +:+ err)), s)
          | None =>
              (Ok config', set_files (<[config_file s := Document config']> (files s)) s)
          end
      end
  end.
Proof.
  unfold load_config, exists_, json_load, rename. unfold_monad. simpl.
  destruct (files s !! config_file s) as [[msg|config]|] eqn:E; simpl.
  - rewrite ?E; simpl. destruct (write_error s); simpl; [done|]. rewrite E. reflexivity.
  - rewrite E. simpl. destruct (config !! "default_repositories") eqn:Ed; simpl; [done|].
    rewrite save_config_cases. by destruct (write_error s).
  - done.
Qed.

Lemma config_file_set_files f s : config_file (set_files f s) = config_file s.
Proof. done. Qed.

Lemma backup_is_another_file s : backup_file s ≠ config_file s.
Proof.
  unfold backup_file. intros Heq.
  apply (f_equal String.length) in Heq. revert Heq.
  generalize (config_file s). intros f.
  induction f as [|c f IH]; simpl; [done|]. intros [= ?]. auto.
Qed.

(** What a load that returns leaves behind: the file holds what was
    returned, and that has a list of protected URLs. *)
Lemma load_config_ok s config s' :
  load_config s = (Ok config, s') →
  files s' !! config_file s' = Some (Document config) ∧
  is_Some (config !! "default_repositories").
Proof.
  rewrite load_config_cases.
  destruct (files s !! config_file s) as [[msg|cfg]|] eqn:E.
  - by destruct (write_error s).
  - destruct (cfg !! "default_repositories") eqn:Ed.
    + intros [= <- <-]. by rewrite E, Ed.
    + destruct (write_error s) eqn:Ew; [done|]. intros [= <- <-].
      rewrite config_file_set_files. simpl.
      by rewrite !lookup_insert_eq.
  - rewrite create_default_config_cases.
    destruct (write_error s) eqn:Ew; [done|]. intros [= <- <-].
    rewrite config_file_set_files. simpl.
    by rewrite lookup_insert_eq.
Qed.

Lemma load_config_raises s e s' : load_config s = (Raise e, s') → store_exn e.
Proof.
  rewrite load_config_cases.
  destruct (files s !! config_file s) as [[msg|cfg]|].
  - destruct (write_error s); by intros [= <- <-].
  - destruct (cfg !! "default_repositories"); [done|].
    destruct (write_error s); [|done]. by intros [= <- <-].
  - rewrite create_default_config_cases.
    destruct (write_error s); [|done]. by intros [= <- <-].
Qed.

(** Loading again what a load has left behind changes nothing. *)
Lemma load_config_again s config :
  files s !! config_file s = Some (Document config) →
  is_Some (config !! "default_repositories") →
  load_config s = (Ok config, s).
Proof. intros E [j Ed]. by rewrite load_config_cases, E, Ed. Qed.

Lemma set_last_used_raises url branch s e s' :
  set_last_used url branch s = (Raise e, s') → store_exn e.
Proof.
  unfold set_last_used. unfold_monad.
  destruct (load_config s) as [[config|e'] s1] eqn:El.
  - rewrite save_config_cases. destruct (write_error s1); [|done].
    by intros [= <- <-].
  - intros [= <- <-]. by eapply load_config_raises.
Qed.

(** What [set_last_used] has stored, [get_last_used] reads. *)
Lemma set_last_used_get url branch s s' :
  set_last_used url branch s = (Ok (), s') →
  get_last_used s' = (Ok (JStr url, JStr branch), s').
Proof.
  unfold set_last_used, get_last_used. unfold_monad.
  destruct (load_config s) as [[config|e'] s1] eqn:El; [|done].
  apply load_config_ok in El as (_ & [j Hd]).
  rewrite save_config_cases. destruct (write_error s1); [done|].
  intros [= <-].
  rewrite (load_config_again _
             (<["last_used_branch":=JStr branch]> (<["last_used_repo":=JStr url]> config))).
  - by rewrite lookup_insert_eq, lookup_insert_ne, lookup_insert_eq.
  - rewrite config_file_set_files. simpl. by rewrite lookup_insert_eq.
  - rewrite !lookup_insert_ne by done. eauto.
Qed.

(** C8 (as amended). When the configuration file does not parse (and the
    directory can be written), [load_config] moves it to the [.backup]
    name and raises [ConfigError]; it leaves no configuration file behind
    and creates no default state itself.  The fresh default state is
    created, written and returned by the next [load_config], and the
    backup is still there after it. *)
Theorem load_config_corrupted s msg :
  files s !! config_file s = Some (Garbage msg) →
  write_error s = None →
  ∃ text s1,
    load_config s = (Raise (ConfigError text), s1) ∧
    files s1 !! config_file s1 = None ∧
    files s1 !! backup_file s1 = Some (Garbage msg) ∧
    ∃ s2,
      load_config s1 = (Ok (default_config (now s)), s2) ∧
      files s2 !! config_file s2 = Some (Document (default_config (now s))) ∧
      files s2 !! backup_file s2 = Some (Garbage msg).
Proof.
  intros E Ew. rewrite load_config_cases, E, Ew.
  eexists _, _. split; [done|].
  rewrite config_file_set_files. simpl.
  pose proof (backup_is_another_file s) as Hne.
  split; [by rewrite lookup_insert_ne, lookup_delete_eq|].
  split; [by rewrite lookup_insert_eq|].
  rewrite load_config_cases, config_file_set_files. simpl.
  rewrite lookup_insert_ne, lookup_delete_eq by done.
  rewrite create_default_config_cases. simpl. rewrite Ew.
  eexists. split; [done|]. rewrite config_file_set_files. simpl.
  by rewrite lookup_insert_eq, lookup_insert_ne, lookup_insert_eq.
Qed.

(** C9. When the stored configuration lists [url] among its default
    repositories, [remove_repository url] returns [False] and leaves the
    whole store, the repository list included, as it was, whatever that
    list holds. *)
Theorem default_repository_not_removable s config defaults url :
  files s !! config_file s = Some (Document config) →
  config !! "default_repositories" = Some (JList defaults) →
  JStr url ∈ defaults →
  remove_repository url s = (Ok false, s).
Proof.
  intros E Ed Hin. unfold remove_repository, is_default_repository. unfold_monad.
  rewrite (load_config_again s config) by eauto. rewrite Ed. simpl.
  assert (existsb (λ x, Py.eq_str x url) defaults = true) as ->; [|done].
  apply existsb_exists. exists (JStr url). split; [by apply list_elem_of_In|].
  simpl. apply String.eqb_refl.
Qed.

(** The hard-wired default URL is protected as well when the stored
    configuration has no list of defaults yet, and when there is no stored
    configuration at all: the load adds the list, or writes the default
    configuration, and the removal is refused. *)
Lemma default_url_protected_without_list s config :
  files s !! config_file s = Some (Document config) →
  config !! "default_repositories" = None →
  write_error s = None →
  ∃ s', remove_repository DEFAULT_URL s = (Ok false, s') ∧
        files s' !! config_file s'
        = Some (Document (<["default_repositories" := JList [JStr DEFAULT_URL]]> config)).
Proof.
  intros E Ed Ew. unfold remove_repository, is_default_repository. unfold_monad.
  rewrite load_config_cases, E, Ed, Ew. cbv beta iota zeta.
  rewrite lookup_insert_eq. simpl.
  eexists. split; [done|]. apply lookup_insert_eq.
Qed.

Lemma default_url_protected_on_first_start s :
  files s !! config_file s = None →
  write_error s = None →
  ∃ s', remove_repository DEFAULT_URL s = (Ok false, s') ∧
        files s' !! config_file s' = Some (Document (default_config (now s))).
Proof.
  intros E Ew. unfold remove_repository, is_default_repository. unfold_monad.
  rewrite load_config_cases, E, create_default_config_cases, Ew. simpl.
  eexists. split; [done|]. apply lookup_insert_eq.
Qed.

(** When the corrupted file cannot be renamed, the error of the file
    system leaves [load_config] as it is, and the file stays in place. *)
Lemma load_config_corrupted_readonly s msg err :
  files s !! config_file s = Some (Garbage msg) →
  write_error s = Some err →
  load_config s = (Raise (OtherException err), s).
Proof. intros E Ew. by rewrite load_config_cases, E, Ew. Qed.

End Store.

(* --------------------------------------------------------------------- *)
(** ** core/git_manager.py and core/build_manager.py *)
(* --------------------------------------------------------------------- *)

Section Wrappers.
Context `{OS}.
Import GitManager.
Implicit Types (p : Proc) (path url : string).

Local Abbreviation Proc_ e l := (Subprocess.mkProc _ e l).

Lemma check_directory_status_cases path p :
  check_directory_status path p =
  if negb (Subprocess.path_exists path (Subprocess.env p))
  then (Ok DOES_NOT_EXIST, p)
  else
    let c := work_tree_cmd path in
    let '(o, e) := Subprocess.spawn c (Subprocess.env p) in
    (match o with
     | Completed 0 _ _ => Ok GIT_REPO
     | Completed _ _ _ => Ok NON_GIT
     | TimedOut msg => Raise (TimeoutExpired msg)
     | NotStarted msg => Raise (OtherException msg)
     end,
     Proc_ e (Subprocess.calls p ++ [(c, o)])).
Proof.
  unfold check_directory_status, Subprocess.exists_, Subprocess.run. unfold_monad.
  destruct (Subprocess.path_exists _ _); simpl; [|done].
  by destruct (Subprocess.spawn _ _) as [[[| |] ? ?| |] e].
Qed.

(** C3 (as amended). [check_directory_status] returns [DOES_NOT_EXIST]
    exactly when the path does not exist.  Otherwise it runs the work-tree
    check, and returns [GIT_REPO] exactly when the check exits with status
    0 and [NON_GIT] exactly when it exits with another status.  When the
    check does not exit (its time limit expires, or it cannot be started)
    the function returns nothing: it raises that exception to its
    caller. *)
Theorem probe_classification path p :
  let r := fst (check_directory_status path p) in
  let present := Subprocess.path_exists path (Subprocess.env p) in
  let o := fst (Subprocess.spawn (work_tree_cmd path) (Subprocess.env p)) in
  (r = Ok DOES_NOT_EXIST ↔ present = false) ∧
  (r = Ok GIT_REPO ↔ present = true ∧ ∃ out err, o = Completed 0 out err) ∧
  (r = Ok NON_GIT ↔
   present = true ∧ ∃ rc out err, o = Completed rc out err ∧ rc ≠ 0) ∧
  (∀ e, r = Raise e ↔
        present = true ∧
        ((∃ msg, o = TimedOut msg ∧ e = TimeoutExpired msg) ∨
         (∃ msg, o = NotStarted msg ∧ e = OtherException msg))).
Proof.
  intros r present o. subst r present o. rewrite check_directory_status_cases.
  destruct (Subprocess.path_exists _ _); simpl.
  2:{ split_and!; [done|..]; try intros e; split; try done; by intros []. }
  destruct (Subprocess.spawn _ _) as [[[| |] out err|msg|msg] e']; simpl.
  all: split_and!; try intros e; (split; [intros ?; simplify_eq|]).
  all: try done; eauto 10.
  all: try (intros [_ (? & ? & ?)]; by simplify_eq).
  all: try (intros [_ (? & ? & ? & ? & ?)]; by simplify_eq).
  all: intros [_ [(? & ? & ?)|(? & ? & ?)]]; by simplify_eq.
Qed.

(** C4 (as amended). In [change_remote]: whenever setting the URL does
    not exit with status 0 (another status, time limit, cannot be
    started), [GitError] is raised and no other command is run.  When
    pruning exits, with whatever status, the fetch is run next and alone
    decides the result.  When pruning does not exit (time limit, cannot be
    started), [GitError] is raised and the fetch is not run.  Whenever the
    fetch does not exit with status 0, [GitError] is raised. *)
Theorem change_remote_steps url path p :
  let c1 := set_url_cmd url path in
  let c2 := prune_cmd path in
  let c3 := fetch_cmd path in
  let log := Subprocess.calls p in
  let '(o1, e1) := Subprocess.spawn c1 (Subprocess.env p) in
  match o1 with
  | Completed 0 _ _ =>
      let '(o2, e2) := Subprocess.spawn c2 e1 in
      match o2 with
      | Completed _ _ _ =>
          let '(o3, e3) := Subprocess.spawn c3 e2 in
          let p' := Proc_ e3 (log ++ [(c1, o1); (c2, o2); (c3, o3)]) in
          match o3 with
          | Completed 0 _ _ => change_remote url path p = (Ok (mkResult true 0), p')
          | _ => ∃ msg, change_remote url path p = (Raise (GitError msg), p')
          end
      | _ =>
          ∃ msg, change_remote url path p =
                 (Raise (GitError msg), Proc_ e2 (log ++ [(c1, o1); (c2, o2)]))
      end
  | _ =>
      ∃ msg, change_remote url path p =
             (Raise (GitError msg), Proc_ e1 (log ++ [(c1, o1)]))
  end.
Proof.
  intros c1 c2 c3. unfold change_remote, Subprocess.run. unfold_monad. simpl.
  fold c1 c2 c3.
  destruct (Subprocess.spawn c1 _) as [[[| |] ? ?| |] e1]; simpl; eauto.
  destruct (Subprocess.spawn c2 _) as [[? ? ?| |] e2]; simpl;
    rewrite <- ?(assoc_L (++)); simpl; eauto.
  destruct (Subprocess.spawn c3 _) as [[[| |] ? ?| |] e3]; simpl;
    rewrite <- ?(assoc_L (++)); simpl; eauto.
Qed.

(** C5. [run_build] first checks that [target_path/build] exists and is
    a regular file, and raises [BuildError] without running anything when
    it is not.  When the build runs and exits, it returns a [BuildResult]
    with that exit status, [success] being whether the status is 0: a
    non-zero status is returned, not raised.  It raises [BuildError] when
    the build does not exit (time limit, cannot be started), and in no
    other case. *)
Theorem run_build_cases path p :
  let script := Subprocess.joinpath path "build" in
  let c := BuildManager.build_cmd path in
  if negb (Subprocess.path_exists script (Subprocess.env p))
     || negb (Subprocess.path_is_file script (Subprocess.env p))
  then ∃ msg, BuildManager.run_build path p = (Raise (BuildError msg), p)
  else
    let '(o, e) := Subprocess.spawn c (Subprocess.env p) in
    let p' := Proc_ e (Subprocess.calls p ++ [(c, o)]) in
    match o with
    | Completed rc _ _ =>
        BuildManager.run_build path p = (Ok (BuildManager.mkResult (rc =? 0) rc), p')
    | _ => ∃ msg, BuildManager.run_build path p = (Raise (BuildError msg), p')
    end.
Proof.
  intros script c.
  unfold BuildManager.run_build, Subprocess.exists_, Subprocess.is_file, Subprocess.run.
  unfold_monad. fold script c.
  destruct (Subprocess.path_exists _ _); simpl; [|eauto].
  destruct (Subprocess.path_is_file _ _); simpl; [|eauto].
  destruct (Subprocess.spawn _ _) as [[? ? ?| |] e]; simpl; eauto.
Qed.

(** A [try] whose handler returns cannot raise. *)
Lemma try_except_total {S A} (m : M S A) (h : Exn → M S A) s :
  (∀ e s', ∃ v s'', h e s' = (Ok v, s'')) →
  ∃ v s', try_except m h s = (Ok v, s').
Proof.
  intros Hh. unfold try_except. destruct (m s) as [[v|e] s']; eauto.
Qed.

(** C10. [get_current_branch] and [get_current_remote] always return:
    the stripped output (for the remote, its normal form when it has one,
    the stripped output itself otherwise) when the command exits with
    status 0, and [None] in every other case (another status, time limit,
    command that cannot be started).  So [detect_current_repo_branch],
    which the window calls after a run, always returns as well. *)
Theorem status_getters_total path p (a : MainWindow.App) :
  (let c := head_cmd path in
   let '(o, e) := Subprocess.spawn c (Subprocess.env p) in
   get_current_branch path p =
   (Ok (match o with
        | Completed 0 out _ => Some (Py.strip out)
        | _ => None
        end),
    Proc_ e (Subprocess.calls p ++ [(c, o)]))) ∧
  (let c := remote_url_cmd path in
   let '(o, e) := Subprocess.spawn c (Subprocess.env p) in
   get_current_remote path p =
   (Ok (match o with
        | Completed 0 out _ =>
            Some (default (Py.strip out)
                          (Repository.validate_and_normalize_url (Py.strip out)))
        | _ => None
        end),
    Proc_ e (Subprocess.calls p ++ [(c, o)]))) ∧
  (∃ a', MainWindow.detect_current_repo_branch a = (Ok (), a')).
Proof.
  split_and!; [intros c..|].
  - unfold get_current_branch, Subprocess.run. unfold_monad. fold c.
    by destruct (Subprocess.spawn _ _) as [[[| |] ? ?| |] e].
  - unfold get_current_remote, Subprocess.run. unfold_monad. fold c.
    destruct (Subprocess.spawn _ _) as [[[| |] out ?| |] e]; simpl; try done.
    destruct (Repository.validate_and_normalize_url _) as [y|] eqn:E; simpl; [|done].
    apply normalized_not_empty in E. by rewrite bool_decide_eq_false_2.
  - unfold MainWindow.detect_current_repo_branch.
    edestruct (try_except_total (S:=MainWindow.App) (A:=unit)) as ([] & a' & ->);
      [|by eexists].
    intros e s'. by eexists _, _.
Qed.

(** What [fetch_branches] returns, by what the listing does. *)
Lemma fetch_branches_cases url p :
  let c := ls_remote_cmd url in
  let '(o, e) := Subprocess.spawn c (Subprocess.env p) in
  let p' := Proc_ e (Subprocess.calls p ++ [(c, o)]) in
  match o with
  | Completed 0 out _ =>
      fetch_branches url p =
      (Ok (Py.sorted (line ← Py.split Py.LF (Py.strip out); branch_of_line line)), p')
  | _ => ∃ msg, fetch_branches url p = (Raise (GitError msg), p')
  end.
Proof.
  intros c. unfold fetch_branches, Subprocess.run. unfold_monad. fold c.
  destruct (Subprocess.spawn _ _) as [[[| |] ? ?| |] e]; simpl; eauto.
Qed.

(** The list it returns is in the order of [str], and holds what the loop
    has collected, duplicates included. *)
Lemma sorted_is_sorted l : Sorted String.le (Py.sorted l) ∧ Py.sorted l ≡ₚ l.
Proof.
  split; [apply (Sorted_merge_sort String.le)|apply merge_sort_Permutation].
Qed.

End Wrappers.

(* --------------------------------------------------------------------- *)
(** ** gui/main_window.py: the worker *)
(* --------------------------------------------------------------------- *)

Ltac unfold_worker :=
  unfold run_worker, MainWindow._checkout_and_build_thread,
    MainWindow.on_proc, MainWindow.on_store, MainWindow.queue_put,
    GitManager.check_directory_status, GitManager.clone_repository,
    GitManager.change_remote, GitManager.checkout_branch,
    GitManager.update_submodules, BuildManager.run_build,
    Subprocess.exists_, Subprocess.is_file, Subprocess.run;
  unfold_monad; simpl.

(** One step of the worker: the next test of the file system or the next
    command, and the update of the store. *)
Ltac worker_step :=
  match goal with
  | |- context [Subprocess.path_exists ?x ?e] =>
      destruct (Subprocess.path_exists x e) eqn:?; simpl
  | |- context [Subprocess.path_is_file ?x ?e] =>
      destruct (Subprocess.path_is_file x e) eqn:?; simpl
  | |- context [Subprocess.spawn ?c ?e] =>
      destruct (Subprocess.spawn c e) as [[[| |] ? ?| |] ?] eqn:?; simpl
  end.

Ltac store_step :=
  match goal with
  | |- context [ConfigManager.set_last_used ?u ?b ?s] =>
      destruct (ConfigManager.set_last_used u b s) as [[[]|[]] ?] eqn:?; simpl
  end.

(** The same, when the final state of the run depends on it. *)
Ltac store_step_of_run :=
  match goal with
  | |- ?P → _ =>
      match P with
      | context [ConfigManager.set_last_used _ _ _] => store_step
      end
  end.

(** The end of a path: the calls made are read off the final state. *)
Ltac finish_trace :=
  simpl; eexists; split; [rewrite <- ?(assoc_L (++)); reflexivity|];
  repeat split;
  first [ exact I
        | eexists; reflexivity
        | reflexivity
        | repeat (constructor; [reflexivity|]); constructor ].

(** The end of a path, for a run whose last call is known: the calls made
    are compared with it. *)
Ltac last_call :=
  let Htrace := fresh "Htrace" in
  let Hlast := fresh "Hlast" in
  intros Htrace Hlast;
  rewrite <- ?(assoc_L (++)) in Htrace; apply app_inv_head in Htrace;
  rewrite <- Htrace in Hlast; simpl in Hlast; simplify_eq.

Ltac store_facts :=
  match goal with
  | E : ConfigManager.set_last_used _ _ _ = (Raise _, _) |- _ =>
      apply set_last_used_raises in E; simpl in E; try contradiction
  | E : ConfigManager.set_last_used _ _ _ = (Ok _, _) |- _ =>
      apply set_last_used_get in E
  end.

Section Worker.
Context `{OS}.
Import GitManager MainWindow.
Implicit Types (a : App) (url branch : string).

(** The worker catches every exception: a run always ends. *)
Lemma worker_never_raises url branch a :
  ∃ a', _checkout_and_build_thread url branch a = (Ok (), a').
Proof.
  unfold _checkout_and_build_thread.
  edestruct (try_except_total (S:=App) (A:=unit)) as ([] & a' & ->); [|by eexists].
  intros [] a'; by eexists _, _.
Qed.

(** C1. What the worker does after the probe is decided by the result of
    the probe.  After [DOES_NOT_EXIST] the first mutating call is the
    clone, and no command of the rewiring is ever run.  After [GIT_REPO]
    the first mutating call is the first command of the rewiring, and the
    clone is never run.  After [NON_GIT] no mutating call is made, the
    only message is the refusal, which stands for [Failed(Configuration)],
    and the store is untouched. *)
Theorem probe_decides_first_operation url branch a :
  let status := fst (check_directory_status TARGET_PATH (proc a)) in
  let a' := run_worker url branch a in
  ∃ trace,
    Subprocess.calls (proc a') = Subprocess.calls (proc a) ++ trace ∧
    match status with
    | Ok DOES_NOT_EXIST =>
        (∃ o, head (filter (λ x, is_mutating x.1) trace)
              = Some (clone_cmd url TARGET_PATH, o)) ∧
        Forall (λ x, is_rewire x.1 = false) trace
    | Ok GIT_REPO =>
        (∃ o, head (filter (λ x, is_mutating x.1) trace)
              = Some (set_url_cmd url TARGET_PATH, o)) ∧
        Forall (λ x, is_clone x.1 = false) trace
    | Ok NON_GIT =>
        Forall (λ x, is_mutating x.1 = false) trace ∧
        task_queue a' = task_queue a ++ [refusal] ∧
        terminal_of refusal = Some (Failed Configuration) ∧
        store a' = store a
    | Raise _ => True
    end.
Proof.
  intros status a'. subst status.
  remember (run_worker url branch a) as final eqn:Hfinal. subst a'.
  revert Hfinal. unfold_worker.
  repeat worker_step.
  all: try store_step.
  all: intros ->; finish_trace.
Qed.

(** C2 (as amended). Take a run whose last external call is the build,
    and in which the build exits with status [rc].  If [rc] is not 0, the
    run ends with the [build_error] message, which stands for
    [Failed(BuildFailed)], and the store is as it was before the run.  If
    [rc] is 0, the worker calls [set_last_used]: when that call returns,
    the run ends with the [build_success] message, which stands for
    [Succeeded], and the store holds the URL and the branch of the run as
    last used; when that call raises, the run ends with an ['error']
    message instead, which stands for [Failed(Unexpected)].  Before the
    final message, the queue has received the four progress messages. *)
Theorem build_exit_decides_outcome url branch a trace rc out err :
  let a' := run_worker url branch a in
  Subprocess.calls (proc a') = Subprocess.calls (proc a) ++ trace →
  last trace = Some (BuildManager.build_cmd TARGET_PATH, Completed rc out err) →
  ∃ cloned,
    if rc =? 0 then
      match ConfigManager.set_last_used url branch (store a) with
      | (Ok _, c) =>
          task_queue a' = task_queue a ++ progress_messages cloned branch ++ [build_success] ∧
          terminal_of build_success = Some Succeeded ∧
          store a' = c ∧
          ConfigManager.get_last_used c = (Ok (JStr url, JStr branch), c)
      | (Raise e, c) =>
          task_queue a' =
          task_queue a ++ progress_messages cloned branch ++ [unexpected_error e] ∧
          terminal_of (unexpected_error e) = Some (Failed Unexpected) ∧
          store a' = c
      end
    else
      task_queue a' = task_queue a ++ progress_messages cloned branch ++ [build_error rc] ∧
      terminal_of (build_error rc) = Some (Failed BuildFailed) ∧
      store a' = store a.
Proof.
  intros a'.
  remember (run_worker url branch a) as final eqn:Hfinal. subst a'.
  revert Hfinal. unfold_worker.
  repeat worker_step.
  all: try store_step_of_run.
  all: intros ->; simpl; last_call.
  all: try store_facts.
  all: try (exists true; simpl; rewrite <- ?(assoc_L (++)); by repeat split).
  all: exists false; simpl; rewrite <- ?(assoc_L (++)); by repeat split.
Qed.

End Worker.

(* --------------------------------------------------------------------- *)
(** ** Runs on the small machine *)
(* --------------------------------------------------------------------- *)

Section Runs.
Import GitManager MainWindow Sim.

(** C6 (the code departs from the claim). For a remote whose only branch
    is [feature/refs/heads/x], [fetch_branches] returns [feature/x]: it
    removes every occurrence of [refs/heads/] from the reference, not only
    the prefix. *)
Theorem fetch_branches_strips_every_occurrence :
  fst (fetch_branches octo (remote nested_listing)) = Ok ["feature/x"].
Proof. vm_compute. reflexivity. Qed.

Example fetch_branches_scenario :
  fst (fetch_branches octo (remote two_branches)) = Ok ["dev"; "main"].
Proof. vm_compute. reflexivity. Qed.

Example fetch_branches_no_branch :
  fst (fetch_branches octo (remote "")) = Ok [].
Proof. vm_compute. reflexivity. Qed.

(** C3 (against the claim as stated). The path exists and the check does
    not exit with status 0, yet the result is not [NON_GIT]: the function
    raises. *)
Lemma probe_timeout_raises :
  Subprocess.path_exists (OS := Sim.os) TARGET_PATH slow_probe = true ∧
  fst (check_directory_status (H := Sim.os) TARGET_PATH (boot slow_probe))
  = Raise (TimeoutExpired "timed out after 10 seconds").
Proof. split; vm_compute; reflexivity. Qed.

(** C4 (against the claim as stated). When pruning runs out of time,
    [change_remote] does not go on: it raises [GitError] and the fetch is
    never run. *)
Lemma prune_timeout_aborts :
  let '(r, p) := change_remote (H := Sim.os) octo TARGET_PATH (boot slow_prune) in
  r = Raise (GitError "Timeout while fetching from new remote") ∧
  fst <$> Subprocess.calls p = [set_url_cmd octo TARGET_PATH; prune_cmd TARGET_PATH].
Proof. vm_compute. split; reflexivity. Qed.

(** C2 (against the claim as stated). The run reaches the build and the
    build exits with status 0, yet the run does not end in [Succeeded] and
    the last-used state is not set: the store cannot be written, and the
    run ends with an ['error'] message. *)
Lemma build_success_without_last_used :
  let a' := run_worker octo "dev" readonly_app in
  last (Subprocess.calls (proc a'))
  = Some (BuildManager.build_cmd TARGET_PATH, Completed 0 "" "") ∧
  (terminal_of <$> last (task_queue a')) = Some (Some (Failed Unexpected)) ∧
  fst (ConfigManager.get_last_used (store a')) = Ok (JStr "", JStr "").
Proof. vm_compute. repeat split; reflexivity. Qed.

(** A first checkout on a machine on which every command succeeds: the
    last call is the build, it exits with status 0, and the run ends in
    [Succeeded] with the URL and the branch stored as last used. *)
Lemma build_exit_decides_outcome_witness :
  let a := writable_app in
  let a' := run_worker octo "dev" a in
  let trace := Subprocess.calls (proc a') in
  let c := snd (ConfigManager.set_last_used octo "dev" (store a)) in
  Subprocess.calls (proc a') = Subprocess.calls (proc a) ++ trace ∧
  last trace = Some (BuildManager.build_cmd TARGET_PATH, Completed 0 "" "") ∧
  ∃ cloned,
    task_queue a' = task_queue a ++ progress_messages cloned "dev" ++ [build_success] ∧
    terminal_of build_success = Some Succeeded ∧
    store a' = c ∧
    ConfigManager.get_last_used c = (Ok (JStr octo, JStr "dev"), c).
Proof.
  intros a a' trace c.
  assert (Subprocess.calls (proc a') = Subprocess.calls (proc a) ++ trace) as H1
    by reflexivity.
  assert (last trace = Some (BuildManager.build_cmd TARGET_PATH, Completed 0 "" "")) as H2
    by (vm_compute; reflexivity).
  split; [exact H1|]. split; [exact H2|].
  exact (build_exit_decides_outcome (H := Sim.os) octo "dev" a trace 0 "" "" H1 H2).
Defined.

(** The scenarios of the specification: a first checkout into an absent
    directory, and a directory that is not a repository. *)
Example clone_scenario :
  let a' := run_worker octo "dev" writable_app in
  fst <$> Subprocess.calls (proc a')
  = [clone_cmd octo TARGET_PATH; checkout_cmd "dev" TARGET_PATH;
     submodule_cmd TARGET_PATH; BuildManager.build_cmd TARGET_PATH] ∧
  task_queue a' = progress_messages true "dev" ++ [build_success] ∧
  fst (ConfigManager.get_last_used (store a')) = Ok (JStr octo, JStr "dev").
Proof. vm_compute. repeat split; reflexivity. Qed.

Example foreign_directory_scenario :
  let a' := run_worker octo "dev" (app foreign (disk first_start)) in
  fst <$> Subprocess.calls (proc a') = [work_tree_cmd TARGET_PATH] ∧
  task_queue a' = [refusal] ∧
  store a' = disk first_start.
Proof. vm_compute. repeat split; reflexivity. Qed.

(** C8 (against the claim as stated). The load that finds the corrupted
    file raises and leaves no configuration file: it creates no default
    state. *)
Lemma corrupted_load_creates_nothing :
  let '(r, s1) := ConfigManager.load_config corrupted in
  (∃ text, r = Raise (ConfigError text)) ∧
  ConfigManager.files s1 !! config_path = None ∧
  ConfigManager.files s1 !! backup_file s1 = Some (ConfigManager.Garbage parse_error).
Proof. vm_compute. split; [by eexists|]. split; reflexivity. Qed.

(** The corrupted file above is moved aside by the first load, and the
    second load writes the default configuration. *)
Lemma load_config_corrupted_witness :
  ConfigManager.files corrupted !! ConfigManager.config_file corrupted
  = Some (ConfigManager.Garbage parse_error) ∧
  ConfigManager.write_error corrupted = None ∧
  ∃ text s1,
    ConfigManager.load_config corrupted = (Raise (ConfigError text), s1) ∧
    ConfigManager.files s1 !! ConfigManager.config_file s1 = None ∧
    ConfigManager.files s1 !! backup_file s1 = Some (ConfigManager.Garbage parse_error) ∧
    ∃ s2,
      ConfigManager.load_config s1
      = (Ok (default_config (ConfigManager.now corrupted)), s2) ∧
      ConfigManager.files s2 !! ConfigManager.config_file s2
      = Some (ConfigManager.Document (default_config (ConfigManager.now corrupted))) ∧
      ConfigManager.files s2 !! backup_file s2 = Some (ConfigManager.Garbage parse_error).
Proof.
  assert (ConfigManager.files corrupted !! ConfigManager.config_file corrupted
          = Some (ConfigManager.Garbage parse_error)) as H1 by (vm_compute; reflexivity).
  assert (ConfigManager.write_error corrupted = None) as H2 by reflexivity.
  split; [exact H1|]. split; [exact H2|].
  exact (load_config_corrupted corrupted parse_error H1 H2).
Defined.

(** The default repository is in the repository list too, and cannot be
    removed. *)
Lemma default_repository_not_removable_witness :
  let s := disk first_start in
  let config := default_config "2023-12-31T12:00:00" in
  let defaults := [JStr ConfigManager.DEFAULT_URL] in
  ConfigManager.files s !! ConfigManager.config_file s
  = Some (ConfigManager.Document config) ∧
  config !! "default_repositories" = Some (JList defaults) ∧
  JStr ConfigManager.DEFAULT_URL ∈ defaults ∧
  config !! "repositories"
  = Some (JList [JDict (Repository.to_dict
                          (Repository.mk (JStr ConfigManager.DEFAULT_URL)
                                         (JStr "drexjj/sbitx")
                                         (JStr "2023-12-31T12:00:00")))]) ∧
  ConfigManager.remove_repository ConfigManager.DEFAULT_URL s = (Ok false, s).
Proof.
  intros s config defaults.
  assert (ConfigManager.files s !! ConfigManager.config_file s
          = Some (ConfigManager.Document config)) as H1 by (vm_compute; reflexivity).
  assert (config !! "default_repositories" = Some (JList defaults)) as H2
    by (vm_compute; reflexivity).
  assert (JStr ConfigManager.DEFAULT_URL ∈ defaults) as H3
    by (apply list_elem_of_singleton; reflexivity).
  split; [exact H1|]. split; [exact H2|]. split; [exact H3|].
  split; [vm_compute; reflexivity|].
  exact (default_repository_not_removable s config defaults _ H1 H2 H3).
Defined.

End Runs.

(* ===================================================================== *)
(** * Part III: the rest of the program *)
(* ===================================================================== *)

(* --------------------------------------------------------------------- *)
(** ** More on strings *)
(* --------------------------------------------------------------------- *)

Section MoreStrings.
Implicit Types (s t r a b : string) (c d : ascii) (cls : ascii → bool).

Lemma all_in_app cls s t : all_in cls (s +:+ t) = all_in cls s && all_in cls t.
Proof.
  induction s as [|c s IH]; [done|]. rewrite app_cons. simpl. rewrite IH.
  by rewrite andb_assoc.
Qed.

Lemma all_in_impl (cls cls' : ascii → bool) s :
  (∀ c, cls c = true → cls' c = true) → all_in cls s = true → all_in cls' s = true.
Proof.
  intros Himpl. induction s as [|c s IH]; simpl; [done|].
  intros [Hc Hs]%andb_prop. by rewrite (Himpl c Hc), IH.
Qed.

(** A word character or a hyphen is not white space, not a dot, not a
    slash, and so on. *)
Lemma word_or_hyphen_cases c :
  Re.word_or_hyphen c = true →
  Py.isspace c = false ∧ c ≠ "."%char ∧ c ≠ "/"%char ∧ c ≠ ":"%char ∧ c ≠ "@"%char ∧
  c ≠ Py.LF.
Proof.
  destruct c as [[] [] [] [] [] [] [] []]; vm_compute; intros [=]; by split_and!.
Qed.

Lemma snoc_cases s : s = "" ∨ ∃ s' c, s = s' +:+ String c "".
Proof.
  induction s as [|c s IH]; [by left|]. right.
  destruct IH as [->|(s' & d & ->)].
  - by exists "", c.
  - exists (String c s'), d. by rewrite app_cons.
Qed.

Lemma snoc_inj s t c d : s +:+ String c "" = t +:+ String d "" → s = t ∧ c = d.
Proof.
  revert t. induction s as [|a s IH]; intros [|b t]; rewrite ?app_cons, ?app_empty_l.
  - by intros [= ->].
  - intros [= -> Ht]. by destruct t.
  - intros [= -> Hs]. by destruct s.
  - intros [= -> [-> ->]%IH]. done.
Qed.

Lemma endswith_inv s t : Py.endswith s t = true → ∃ a, s = a +:+ t.
Proof.
  induction s as [|c s IH]; cbn -[String.eqb].
  - rewrite orb_false_r. intros ->%String.eqb_eq. by exists "".
  - intros [->%String.eqb_eq|(a & ->)%IH]%orb_prop; [by exists ""|].
    by exists (String c a).
Qed.

Lemma slash_snoc x q y d :
  x +:+ "/" +:+ q = y +:+ String d "" →
  (q = "" ∧ d = "/"%char) ∨ (∃ q', q = q' +:+ String d "" ∧ x +:+ "/" +:+ q' = y).
Proof.
  destruct (snoc_cases q) as [->|(q' & c & ->)].
  - change (x +:+ "/" +:+ "") with (x +:+ String "/" "").
    intros [_ <-]%snoc_inj. by left.
  - rewrite <- !app_assoc_s. intros [<- ->]%snoc_inj. right.
    exists q'. by rewrite app_assoc_s.
Qed.

(** [owner/repo] does not end with [.git]. *)
Lemma endswith_git_run x q :
  all_in Re.word_or_hyphen q = true → Py.endswith (x +:+ "/" +:+ q) ".git" = false.
Proof.
  intros Hq. destruct (Py.endswith _ _) eqn:E; [|done]. exfalso.
  apply endswith_inv in E as (a & E).
  change (a +:+ ".git") with (a +:+ (".gi" +:+ String "t" "")) in E.
  rewrite <- (app_assoc_s a) in E.
  apply slash_snoc in E as [[_ [=]]|(q1 & -> & E)].
  change (a +:+ ".gi") with (a +:+ (".g" +:+ String "i" "")) in E.
  rewrite <- (app_assoc_s a) in E.
  apply slash_snoc in E as [[_ [=]]|(q2 & -> & E)].
  change (a +:+ ".g") with (a +:+ ("." +:+ String "g" "")) in E.
  rewrite <- (app_assoc_s a) in E.
  apply slash_snoc in E as [[_ [=]]|(q3 & -> & E)].
  change (a +:+ ".") with (a +:+ String "." "") in E.
  apply slash_snoc in E as [[_ [=]]|(q4 & -> & E)].
  rewrite !all_in_app in Hq. simpl in Hq.
  by rewrite !andb_false_r in Hq.
Qed.

End MoreStrings.

(* --------------------------------------------------------------------- *)
(** ** More on the matcher *)
(* --------------------------------------------------------------------- *)

Section MoreRegex.

Lemma list_bind_bind {A B C} (f : A → list B) (g : B → list C) (l : list A) :
  (l ≫= f) ≫= g = l ≫= λ x, f x ≫= g.
Proof.
  induction l as [|x l IH]; [done|]. by rewrite !bind_cons, bind_app, IH.
Qed.

Implicit Types (s t m r p o a b : string) (c d : ascii) (cls : ascii → bool).

Local Abbreviation woh := Re.word_or_hyphen.

(** A literal with a character that is neither of the class nor a slash
    before its first slash does not start [owner/...]. *)
Lemma drop_prefix_run a c b o r :
  all_in woh a = true → woh c = false → c ≠ "/"%char → all_in woh o = true →
  Re.drop_prefix (a +:+ String c b) (o +:+ "/" +:+ r) = None.
Proof.
  intros Ha Hc Hslash. revert o. induction a as [|a1 a IH]; intros o Ho.
  - rewrite app_empty_l. destruct o as [|d o]; simpl.
    + destruct (Ascii.eqb_spec c "/"); done.
    + simpl in Ho. apply andb_prop in Ho as [Hd _].
      destruct (Ascii.eqb_spec c d) as [->|]; [congruence|done].
  - simpl in Ha. apply andb_prop in Ha as [Ha1 Ha].
    destruct o as [|d o]; simpl.
    + destruct (Ascii.eqb_spec a1 "/") as [->|]; done.
    + simpl in Ho. apply andb_prop in Ho as [_ Ho].
      destruct (Ascii.eqb a1 d); [by apply IH|done].
Qed.

Lemma lit_run a c b o r :
  all_in woh a = true → woh c = false → c ≠ "/"%char → all_in woh o = true →
  Re.lit (a +:+ String c b) (o +:+ "/" +:+ r) = [].
Proof. intros. unfold Re.lit. by rewrite drop_prefix_run. Qed.

(** [re.search] moves to the next position when the pattern does not
    match at the current one. *)
Lemma search_cons {A} (P : string → list A) c s :
  Re.search P (String c s) =
  match P (String c s) with
  | g :: _ => Some g
  | [] => Re.search P s
  end.
Proof.
  unfold Re.search. simpl. rewrite head_app.
  by destruct (P (String c s)).
Qed.

Lemma search_head {A} (P : string → list A) s g l : P s = g :: l → Re.search P s = Some g.
Proof.
  intros E. destruct s as [|c s].
  - unfold Re.search. simpl. by rewrite E.
  - by rewrite search_cons, E.
Qed.

(** It skips a prefix at no position of which the pattern matches. *)
Lemma search_skip {A} (P : string → list A) a s :
  Forall (λ a', a' = "" ∨ P (a' +:+ s) = []) (Re.suffixes a) →
  Re.search P (a +:+ s) = Re.search P s.
Proof.
  induction a as [|c a IH]; [done|]. simpl.
  intros [[[=]|E] Hrest]%Forall_cons. rewrite app_cons, search_cons.
  rewrite <- app_cons, E. by apply IH.
Qed.

(** It finds nothing in a text at no position of which the pattern
    matches. *)
Lemma search_none {A} (P : string → list A) cls s :
  (∀ t, all_in cls t = true → P t = []) → all_in cls s = true → Re.search P s = None.
Proof.
  intros HP. induction s as [|c s IH]; intros Hs.
  - unfold Re.search. simpl. by rewrite HP.
  - rewrite search_cons, HP by done. simpl in Hs. apply andb_prop in Hs as [_ Hs]. auto.
Qed.

(** A literal with a slash does not match in a text without one. *)
Lemma lit_no_slash p s :
  all_in Repository.not_slash p = false → all_in Repository.not_slash s = true →
  Re.lit p s = [].
Proof.
  intros Hp Hs. unfold Re.lit. destruct (Re.drop_prefix p s) as [r|] eqn:E; [|done].
  apply drop_prefix_Some in E as ->. rewrite all_in_app in Hs.
  apply andb_prop in Hs as [Hp' _]. congruence.
Qed.

(** The first way [[^/]+?(\.git)?$] matches [repo.git] takes [repo]. *)
Lemma plus_lazy_git {A} p (k : string → A) :
  run_of woh p →
  ∃ l, (Re.plus_lazy Repository.not_slash (p +:+ ".git") ≫=
          λ '(m, r4), '(_, r5) ← Re.opt (Re.lit ".git") r4; _ ← Re.eol r5; [k m])
       = k p :: l.
Proof.
  intros [Hne Hp]. revert k. induction p as [|c p IH]; intros k; [done|].
  simpl in Hp. apply andb_prop in Hp as [Hc Hp].
  rewrite app_cons. simpl.
  assert (Repository.not_slash c = true) as ->.
  { apply word_or_hyphen_cases in Hc as (_ & _ & Hc & _).
    unfold Repository.not_slash. by destruct (Ascii.eqb_spec c "/"). }
  rewrite bind_cons. destruct p as [|d p].
  - rewrite app_empty_l. simpl. by eexists.
  - simpl in Hp. pose proof Hp as [Hd _]%andb_prop.
    apply word_or_hyphen_cases in Hd as (_ & Hdot & _ & _ & _ & Hlf).
    assert (('(_, r5) ← Re.opt (Re.lit ".git") (String d p +:+ ".git");
             _ ← Re.eol r5; [k (String c "")]) = []) as ->.
    { rewrite app_cons. unfold Re.opt, Re.lit. cbn [Re.drop_prefix].
      destruct (Ascii.eqb_spec "." d) as [<-|_]; [done|]. simpl.
      unfold Re.eol. rewrite bool_decide_eq_false_2; [done|].
      intros [[=]|[= -> _]]. done. }
    rewrite list_fmap_bind. simpl.
    destruct (IH ltac:(done) Hp (λ m, k (String c m))) as [l E].
    eexists. etrans; [|exact E]. apply list_bind_ext; [|done]. by intros [m r].
Qed.

End MoreRegex.

(* --------------------------------------------------------------------- *)
(** ** models/repository.py: the accepted URLs *)
(* --------------------------------------------------------------------- *)

Section MoreNormalize.
Import Repository.
Implicit Types (s t m r p o g x y u : string).

Local Abbreviation woh := Re.word_or_hyphen.

Lemma url_pattern_head (prefix suffix : string) o p :
  run_of woh o → run_of woh p → suffix = "" ∨ suffix = ".git" →
  ∃ l, ('(_, r1) ← Re.lit prefix (prefix +:+ (o +:+ "/" +:+ p) +:+ suffix);
        '(g1, r2) ← owner_repo r1;
        '(_, r3) ← Re.opt (Re.lit ".git") r2;
        _ ← Re.eol r3;
        [g1]) = (o +:+ "/" +:+ p) :: l.
Proof.
  intros Ho Hp Hsuffix. rewrite lit_app.
  destruct (owner_repo_head o p suffix Ho Hp) as [l E]; [by destruct Hsuffix as [->| ->]|].
  rewrite !app_assoc_s. simpl. rewrite E.
  destruct Hsuffix as [->| ->]; simpl; by eexists.
Qed.

Lemma short_pattern_head (prefix : string) o p :
  run_of woh o → run_of woh p → prefix = "" ∨ prefix = "github.com/" →
  ∃ l, short_pattern (prefix +:+ (o +:+ "/" +:+ p)) = (o +:+ "/" +:+ p) :: l.
Proof.
  intros Ho Hp Hprefix. unfold short_pattern, Re.opt.
  destruct (owner_repo_head o p "" Ho Hp) as [l E]; [done|].
  rewrite app_empty_r in E.
  destruct Hprefix as [->| ->].
  - rewrite app_empty_l, (lit_run "github" "." "com/") by (done || apply Ho).
    simpl. rewrite E. simpl. by eexists.
  - rewrite lit_app. simpl. rewrite E. simpl. by eexists.
Qed.

(** What the short pattern accepts. *)
Lemma elem_of_short_pattern_text s g :
  g ∈ short_pattern s →
  ∃ prefix tail, s = prefix +:+ g +:+ tail ∧
                 (prefix = "" ∨ prefix = "github.com/") ∧ (tail = "" ∨ tail = Py.nl).
Proof.
  unfold short_pattern.
  intros ([g1 r1] & Hg & Hopt)%list_elem_of_bind.
  apply list_elem_of_bind in Hg as ([g2 r2] & Hg & Hor).
  apply elem_of_owner_repo in Hor as (o & p & Ho & Hp & -> & ->).
  apply list_elem_of_bind in Hg as ([] & Hg & Heol%elem_of_eol).
  apply list_elem_of_singleton in Hg as ->.
  apply elem_of_opt in Hopt as [[-> <-]|(m & -> & [-> ->]%elem_of_lit)].
  - exists "", r2. rewrite app_empty_l. auto.
  - exists "github.com/", r2. auto.
Qed.

Lemma match_none {A} (P : string → list A) s : P s = [] → Re.match_ P s = None.
Proof. unfold Re.match_. by intros ->. Qed.

(** Every form of the table is accepted, and normalised as the table
    says. *)
Lemma normalize_complete g u y :
  owner_repo_name g → (u, y) ∈ accepted_forms g →
  ∀ x, Py.strip x = u → validate_and_normalize_url x = Some y.
Proof.
  intros (o & p & Ho & Hp & ->) Hin x Hx. unfold validate_and_normalize_url. rewrite Hx.
  unfold accepted_forms in Hin. rewrite !elem_of_cons, elem_of_nil in Hin.
  destruct Hin as [[= -> ->]|[[= -> ->]|[[= -> ->]|[[= -> ->]|[[= -> ->]|[[= -> ->]|[]]]]]]].
  - destruct (url_pattern_head "https://github.com/" "" o p Ho Hp) as [l E]; [by left|].
    rewrite app_empty_r in E. by rewrite (match_head https_pattern _ _ _ E).
  - destruct (url_pattern_head "https://github.com/" ".git" o p Ho Hp) as [l E]; [by right|].
    by rewrite (match_head https_pattern _ _ _ E).
  - destruct (url_pattern_head "git@github.com:" "" o p Ho Hp) as [l E]; [by left|].
    rewrite app_empty_r in E.
    rewrite (match_none https_pattern) by done.
    rewrite (match_head ssh_pattern _ _ _ E).
    rewrite <- (app_assoc_s "git@github.com:"), endswith_git_run by apply Hp.
    unfold ssh_form. by rewrite !app_assoc_s.
  - destruct (url_pattern_head "git@github.com:" ".git" o p Ho Hp) as [l E]; [by right|].
    rewrite (match_none https_pattern) by done.
    rewrite (match_head ssh_pattern _ _ _ E).
    by rewrite <- (app_assoc_s "git@github.com:"), endswith_app.
  - destruct (short_pattern_head "" o p Ho Hp) as [l E]; [by left|].
    rewrite app_empty_l in E.
    rewrite (match_none https_pattern).
    2:{ unfold https_pattern. by rewrite (lit_run "https" ":" "//github.com/") by (done || apply Ho). }
    rewrite (match_none ssh_pattern).
    2:{ unfold ssh_pattern. by rewrite (lit_run "git" "@" "github.com:") by (done || apply Ho). }
    by rewrite (match_head short_pattern _ _ _ E).
  - destruct (short_pattern_head "github.com/" o p Ho Hp) as [l E]; [by right|].
    rewrite (match_none https_pattern) by done.
    rewrite (match_none ssh_pattern) by done.
    by rewrite (match_head short_pattern _ _ _ E).
Qed.

(** Nothing else is accepted. *)
Lemma normalize_sound x y :
  validate_and_normalize_url x = Some y →
  ∃ g, owner_repo_name g ∧ (Py.strip x, y) ∈ accepted_forms g.
Proof.
  unfold validate_and_normalize_url, accepted_forms.
  remember (Py.strip x) as u eqn:Hu.
  assert (∀ a, u ≠ a +:+ Py.nl) as Hnl.
  { intros a E. rewrite Hu in E. by apply strip_last in E. }
  destruct (Re.match_ https_pattern u) as [base|] eqn:Hh.
  { intros [= <-].
    apply match_elem_of, elem_of_url_pattern in Hh
      as (o & p & suffix & tail & Ho & Hp & -> & -> & Hsuffix & [->| ->]).
    2:{ destruct (Hnl ("https://github.com/" +:+ (o +:+ "/" +:+ p) +:+ suffix)).
        by rewrite !app_assoc_s. }
    exists (o +:+ "/" +:+ p). split; [by exists o, p|].
    rewrite !elem_of_cons.
    destruct Hsuffix as [->| ->]; rewrite !app_empty_r; auto. }
  destruct (Re.match_ ssh_pattern u) as [g|] eqn:Hs.
  { intros Hy.
    apply match_elem_of, elem_of_url_pattern in Hs
      as (o & p & suffix & tail & Ho & Hp & -> & -> & Hsuffix & [->| ->]).
    2:{ destruct (Hnl ("git@github.com:" +:+ (o +:+ "/" +:+ p) +:+ suffix)).
        by rewrite !app_assoc_s. }
    exists (o +:+ "/" +:+ p). split; [by exists o, p|].
    rewrite !elem_of_cons. unfold ssh_form.
    destruct Hsuffix as [->| ->]; rewrite !app_empty_r in *.
    - rewrite <- (app_assoc_s "git@github.com:"), endswith_git_run in Hy by apply Hp.
      injection Hy as <-. rewrite !app_assoc_s. auto.
    - rewrite <- (app_assoc_s "git@github.com:"), endswith_app in Hy.
      injection Hy as <-. rewrite !app_assoc_s. auto 10. }
  destruct (Re.match_ short_pattern u) as [g|] eqn:Hp; intros [= <-].
  pose proof Hp as Hshape.
  apply match_elem_of, elem_of_short_pattern in Hp as (o & p & Ho & Hp & ->).
  apply match_elem_of, elem_of_short_pattern_text in Hshape
    as (prefix & tail & -> & Hprefix & [->| ->]).
  2:{ destruct (Hnl (prefix +:+ (o +:+ "/" +:+ p))). by rewrite !app_assoc_s. }
  exists (o +:+ "/" +:+ p). split; [by exists o, p|].
  rewrite !elem_of_cons, app_empty_r.
  destruct Hprefix as [->| ->]; rewrite ?app_empty_l; auto 10.
Qed.

(** X2. The inputs [validate_and_normalize_url] accepts are, once the
    white space around them is removed, exactly the six forms of the table,
    for an [owner/repo] made of two non-empty runs of word characters and
    hyphens; the result is the form the table gives. *)
Theorem normalize_accepts_exactly x y :
  validate_and_normalize_url x = Some y ↔
  ∃ g, owner_repo_name g ∧ (Py.strip x, y) ∈ accepted_forms g.
Proof.
  split; [apply normalize_sound|].
  intros (g & Hg & Hin). by eapply normalize_complete.
Qed.

End MoreNormalize.

(* --------------------------------------------------------------------- *)
(** ** models/repository.py: [create_new] and [get_short_name] *)
(* --------------------------------------------------------------------- *)

(** A prefix at no position of which the pattern matches. *)
Ltac skip_prefix :=
  repeat (apply Forall_cons; split; [by right|]);
  apply Forall_cons; split; [by left|]; apply Forall_nil_2.

Section MoreRepository.
Import Repository.
Implicit Types (s t m r p o g x y u : string).

Local Abbreviation woh := Re.word_or_hyphen.

(** The display pattern reads [owner/repo] in both canonical forms. *)
Lemma display_of_canonical g :
  owner_repo_name g →
  Re.search display_pattern (https_form g) = Some g ∧
  Re.search display_pattern (ssh_form g) = Some g.
Proof.
  intros (o & p & Ho & Hp & ->).
  destruct (owner_repo_head o p ".git" Ho Hp) as [l E]; [done|].
  split.
  - change (https_form ?g) with ("https://" +:+ ("github.com" +:+ ("/" +:+ (g +:+ ".git")))).
    rewrite search_skip by skip_prefix.
    eapply search_head. unfold display_pattern. rewrite lit_app. simpl.
    rewrite app_empty_l, !app_assoc_s, E. reflexivity.
  - change (ssh_form ?g) with ("git@" +:+ ("github.com" +:+ (":" +:+ (g +:+ ".git")))).
    rewrite search_skip by skip_prefix.
    eapply search_head. unfold display_pattern. rewrite lit_app. simpl.
    rewrite app_empty_l, !app_assoc_s, E. reflexivity.
Qed.

Lemma canonical_of_accepted g u y :
  (u, y) ∈ accepted_forms g → y = https_form g ∨ y = ssh_form g.
Proof.
  unfold accepted_forms. rewrite !elem_of_cons, elem_of_nil.
  intros [[= _ ->]|[[= _ ->]|[[= _ ->]|[[= _ ->]|[[= _ ->]|[[= _ ->]|[]]]]]]]; auto.
Qed.

Lemma create_new_cases now x :
  create_new now x =
  match validate_and_normalize_url x with
  | Some y =>
      Some (mk (JStr y) (JStr (default y (Re.search display_pattern y))) (JStr now))
  | None => None
  end.
Proof.
  unfold create_new. destruct (validate_and_normalize_url x) as [y|] eqn:E; [|done].
  apply normalized_not_empty in E. rewrite bool_decide_eq_false_2 by done.
  by destruct (Re.search display_pattern y).
Qed.

(** X3. [create_new] returns a repository exactly for the inputs the
    table accepts; its URL is the normal form of the input, its display
    name is the [owner/repo] part of that URL, and its date is the time of
    the call. *)
Theorem create_new_fields now x (repo : t) :
  create_new now x = Some repo ↔
  ∃ g y, owner_repo_name g ∧ (Py.strip x, y) ∈ accepted_forms g ∧
         repo = mk (JStr y) (JStr g) (JStr now).
Proof.
  rewrite create_new_cases. split.
  - destruct (validate_and_normalize_url x) as [y|] eqn:E; [|done]. intros [= <-].
    apply normalize_sound in E as (g & Hg & Hin). exists g, y. split_and!; [done..|].
    destruct (display_of_canonical g Hg) as [E1 E2].
    by destruct (canonical_of_accepted _ _ _ Hin) as [->| ->]; rewrite ?E1, ?E2.
  - intros (g & y & Hg & Hin & ->).
    rewrite (normalize_complete g _ y Hg Hin x eq_refl).
    destruct (display_of_canonical g Hg) as [E1 E2].
    by destruct (canonical_of_accepted _ _ _ Hin) as [->| ->]; rewrite ?E1, ?E2.
Qed.

Lemma run_not_slash o : all_in woh o = true → all_in not_slash o = true.
Proof.
  apply all_in_impl. intros c (_ & _ & Hc & _)%word_or_hyphen_cases.
  unfold not_slash. by destruct (Ascii.eqb_spec c "/").
Qed.

(** The pattern of [get_short_name] reads [owner/repo] after the host. *)
Lemma short_name_pattern_head (sep : string) o p :
  run_of woh o → run_of woh p →
  ∃ l, short_name_pattern sep (("github.com" +:+ sep) +:+ o +:+ "/" +:+ p +:+ ".git")
       = (o +:+ "/" +:+ p) :: l.
Proof.
  intros Ho Hp. unfold short_name_pattern, Re.seq. rewrite lit_app. simpl.
  destruct (plus_head not_slash o ("/" +:+ p +:+ ".git")) as [l1 ->];
    [split; [apply Ho|apply run_not_slash, Ho]|done|].
  rewrite !bind_cons.
  change (Re.lit "/" ("/" +:+ ?s)) with [("/", s)]. rewrite bind_singleton.
  rewrite app_nil_r, bind_app, !list_bind_bind.
  destruct (plus_lazy_git p (λ m, o +:+ "/" +:+ m) Hp) as [l E].
  match goal with
  | |- ∃ _, ?first ++ _ = _ => assert (first = (o +:+ "/" +:+ p) :: l) as ->
  end.
  { rewrite <- E. apply list_bind_ext; [|done]. intros [m r]. simpl.
    by rewrite !app_nil_r. }
  by eexists.
Qed.

(** In a canonical URL the first pattern of [get_short_name] finds the
    host only where the URL has it. *)
Lemma short_name_slash_none o p :
  run_of woh o → run_of woh p →
  Re.search (short_name_pattern "/") (o +:+ "/" +:+ p +:+ ".git") = None.
Proof.
  intros [_ Ho] [_ Hp].
  assert (∀ t, all_in not_slash t = true → short_name_pattern "/" t = []) as Hnone.
  { intros t Ht. unfold short_name_pattern. by rewrite lit_no_slash. }
  induction o as [|c o IH].
  - rewrite app_empty_l. change ("/" +:+ ?s) with (String "/" s).
    rewrite search_cons. simpl. apply (search_none _ not_slash); [done|].
    rewrite all_in_app. by rewrite run_not_slash.
  - rewrite app_cons, search_cons, <- app_cons.
    unfold short_name_pattern at 1.
    rewrite (lit_run "github" "." "com/") by done. simpl.
    simpl in Ho. apply andb_prop in Ho as [_ Ho]. auto.
Qed.

(** X4. For a repository whose URL is in canonical form, [get_short_name]
    returns the [owner/repo] part of the URL, whatever its display name
    is. *)
Theorem get_short_name_canonical g (repo : t) :
  owner_repo_name g →
  url repo = JStr (https_form g) ∨ url repo = JStr (ssh_form g) →
  get_short_name repo = Ok (JStr g).
Proof.
  intros (o & p & Ho & Hp & ->) Hurl. unfold get_short_name.
  destruct (short_name_pattern_head "/" o p Ho Hp) as [l1 E1].
  destruct (short_name_pattern_head ":" o p Ho Hp) as [l2 E2].
  destruct Hurl as [-> | ->].
  - change (https_form ?g)
      with ("https://" +:+ (("github.com" +:+ "/") +:+ (g +:+ ".git"))).
    rewrite search_skip by skip_prefix.
    rewrite !app_assoc_s in *. by rewrite (search_head _ _ _ _ E1).
  - change (ssh_form ?g) with ("git@github.com:" +:+ (g +:+ ".git")) at 1.
    rewrite search_skip by skip_prefix.
    rewrite !app_assoc_s, short_name_slash_none by done.
    change (ssh_form ?g)
      with ("git@" +:+ (("github.com" +:+ ":") +:+ (g +:+ ".git"))).
    rewrite search_skip by skip_prefix.
    rewrite !app_assoc_s in *. by rewrite (search_head _ _ _ _ E2).
Qed.

End MoreRepository.

Section CurrentRemote.
Context `{OS}.
Import GitManager.

Lemma normalize_fixed x y :
  Repository.validate_and_normalize_url x = Some y →
  Repository.validate_and_normalize_url y = Some y.
Proof.
  intros (g & (o & p & Ho & Hp & ->) & Hin)%normalize_sound.
  destruct (canonical_of_accepted _ _ _ Hin) as [->| ->].
  - by apply normalize_https_canonical.
  - by apply normalize_ssh_canonical.
Qed.

(** X5. The URL [get_current_remote] reports is one the normalisation
    leaves as it is, or one it rejects.  So when the window makes a
    repository of it with [create_new], that repository has exactly the
    reported URL, and no repository is made only when the URL is not one of
    GitHub. *)
Theorem current_remote_is_normal path p u p' now :
  get_current_remote path p = (Ok (Some u), p') →
  match Repository.create_new now u with
  | Some repo => Repository.url repo = JStr u
  | None => Repository.validate_and_normalize_url u = None
  end.
Proof.
  unfold get_current_remote, Subprocess.run. unfold_monad.
  rewrite create_new_cases.
  destruct (Subprocess.spawn _ _) as [[[| |] out ?| |] e]; simpl; try done.
  destruct (Repository.validate_and_normalize_url (Py.strip out)) as [y|] eqn:E; simpl.
  - pose proof (normalized_not_empty _ _ E) as Hne.
    rewrite bool_decide_eq_false_2 by done. intros [= <- _].
    by rewrite (normalize_fixed _ _ E).
  - intros [= <- _]. by rewrite E.
Qed.

End CurrentRemote.

(* --------------------------------------------------------------------- *)
(** ** core/config_manager.py: the repository list *)
(* --------------------------------------------------------------------- *)

Section MoreStore.
Import ConfigManager.
Implicit Types (s : Store) (config : gmap string Json) (url : string)
  (repo : Repository.t) (repos : list Repository.t).

Lemma from_dict_of_to_dict repo :
  Repository.from_dict (JDict (Repository.to_dict repo)) = Ok repo.
Proof. by destruct repo. Qed.

(** X1. A repository written by [to_dict] is read back by [from_dict];
    [from_dict] returns exactly for a dict that has the three keys, reads
    nothing else of it, and raises for every other value. *)
Theorem from_dict_round_trip repo (data : Json) :
  Repository.from_dict (JDict (Repository.to_dict repo)) = Ok repo ∧
  (Repository.from_dict data = Ok repo ↔
   ∃ d, data = JDict d ∧ Repository.to_dict repo ⊆ d).
Proof.
  split; [apply from_dict_of_to_dict|]. split.
  - destruct data as [| | | | |d]; try done. simpl.
    destruct (d !! "url") as [u|] eqn:Eu; [|done].
    destruct (d !! "display_name") as [n|] eqn:En; [|done].
    destruct (d !! "added_date") as [a|] eqn:Ea; [|done].
    intros [= <-]. exists d. split; [done|].
    unfold Repository.to_dict. simpl.
    repeat (apply insert_subseteq_l; [done|]). apply map_empty_subseteq.
  - intros (d & -> & Hsub). simpl.
    rewrite (lookup_weaken _ d "url" (Repository.url repo) eq_refl Hsub).
    rewrite (lookup_weaken _ d "display_name" (Repository.display_name repo) eq_refl Hsub).
    rewrite (lookup_weaken _ d "added_date" (Repository.added_date repo) eq_refl Hsub).
    by destruct repo.
Qed.

Lemma parse_entries repos :
  ((λ r, JDict (Repository.to_dict r)) <$> repos) ≫=
    (λ repo_data, match Repository.from_dict repo_data with
                  | Ok r => [r]
                  | Raise _ => []
                  end) = repos.
Proof.
  induction repos as [|r repos IH]; [done|].
  rewrite fmap_cons, bind_cons, from_dict_of_to_dict, IH. done.
Qed.

Lemma same_refl s : same_but_config s s.
Proof. by split_and!. Qed.

Lemma same_trans s1 s2 s3 :
  same_but_config s1 s2 → same_but_config s2 s3 → same_but_config s1 s3.
Proof.
  intros (Hd & Hw & Hn & Hf) (Hd' & Hw' & Hn' & Hf').
  assert (config_file s2 = config_file s1) as Hc by (unfold config_file; by rewrite Hd).
  assert (backup_file s2 = backup_file s1) as Hb by (unfold backup_file; by rewrite Hc).
  split_and!; [congruence..|].
  intros path H1 H2. rewrite Hf', Hf by congruence. done.
Qed.

Lemma same_set_files s (f : gmap string Content) :
  (∀ path, path ≠ config_file s → path ≠ backup_file s → f !! path = files s !! path) →
  same_but_config s (set_files f s).
Proof. intros Hf. by split_and!. Qed.

Lemma save_config_same config s : same_but_config s (save_config config s).2.
Proof.
  rewrite save_config_cases. destruct (write_error s); [apply same_refl|].
  apply same_set_files. intros path H1 H2. by rewrite lookup_insert_ne.
Qed.

Lemma load_config_same s : same_but_config s (load_config s).2.
Proof.
  rewrite load_config_cases.
  destruct (files s !! config_file s) as [[msg|cfg]|] eqn:E.
  - destruct (write_error s); [apply same_refl|]. apply same_set_files.
    intros path H1 H2. by rewrite lookup_insert_ne, lookup_delete_ne.
  - destruct (cfg !! "default_repositories"); [apply same_refl|].
    destruct (write_error s); [apply same_refl|]. apply same_set_files.
    intros path H1 H2. by rewrite lookup_insert_ne.
  - rewrite create_default_config_cases.
    destruct (write_error s); [apply same_refl|]. apply same_set_files.
    intros path H1 H2. by rewrite lookup_insert_ne.
Qed.

Lemma load_repositories_of_entries s config repos :
  files s !! config_file s = Some (Document config) →
  is_Some (config !! "default_repositories") →
  config !! "repositories" = Some (entries repos) →
  load_repositories s = (Ok repos, s).
Proof.
  intros E Hd Hr. unfold load_repositories. unfold_monad.
  rewrite (load_config_again s config) by done. rewrite Hr. simpl.
  by rewrite parse_entries.
Qed.

Lemma load_repositories_again s repos s1 :
  load_repositories s = (Ok repos, s1) → load_repositories s1 = (Ok repos, s1).
Proof.
  unfold load_repositories. unfold_monad.
  destruct (load_config s) as [[config|e] s0] eqn:El; [|done].
  apply load_config_ok in El as [E Hd].
  destruct (Py.json_iter _) as [items|] eqn:Ei; intros [= <- <-].
  rewrite (load_config_again s0 config) by done. by rewrite Ei.
Qed.

Lemma save_repositories_load repos s s' :
  save_repositories repos s = (Ok (), s') → load_repositories s' = (Ok repos, s').
Proof.
  unfold save_repositories. unfold_monad.
  destruct (load_config s) as [[config|e] s1] eqn:El; [|done].
  apply load_config_ok in El as [E [j Hd]].
  rewrite save_config_cases. destruct (write_error s1); [done|]. intros [= <-].
  apply (load_repositories_of_entries _ (<["repositories" := entries repos]> config)).
  - rewrite config_file_set_files. simpl. apply lookup_insert_eq.
  - rewrite lookup_insert_ne by done. eauto.
  - apply lookup_insert_eq.
Qed.

(** X6. A load that returns has put the store in a state in which every
    further load returns the same configuration and changes nothing. *)
Theorem load_config_idempotent s config s' :
  load_config s = (Ok config, s') → load_config s' = (Ok config, s').
Proof. intros [E Hd]%load_config_ok. by apply load_config_again. Qed.

(** X7. What [save_config] has written, [load_config] returns: as it is
    when it has a list of default repositories, and with the list of the
    hard-wired default added (and written back) when it has none. *)
Theorem save_config_load config s s' :
  save_config config s = (Ok (), s') →
  let config' :=
    if bool_decide (is_Some (config !! "default_repositories")) then config
    else <["default_repositories" := JList [JStr DEFAULT_URL]]> config in
  ∃ s'',
    load_config s' = (Ok config', s'') ∧
    load_config s'' = (Ok config', s'') ∧
    (is_Some (config !! "default_repositories") → s'' = s').
Proof.
  rewrite save_config_cases. destruct (write_error s) eqn:Ew; [done|]. intros [= <-].
  intros config'. subst config'.
  rewrite load_config_cases, config_file_set_files. simpl. rewrite lookup_insert_eq.
  destruct (config !! "default_repositories") as [j|] eqn:Ed.
  - rewrite bool_decide_eq_true_2 by eauto. eexists. split; [done|]. split; [|done].
    apply (load_config_again _ config); [|eauto].
    rewrite config_file_set_files. simpl. apply lookup_insert_eq.
  - rewrite bool_decide_eq_false_2 by (by intros [? ?]). rewrite Ew.
    eexists. split; [done|]. split; [|by intros [? ?]].
    apply load_config_again.
    + rewrite config_file_set_files. simpl. apply lookup_insert_eq.
    + rewrite lookup_insert_eq. eauto.
Qed.

(** X8. The list [save_repositories] has written is the list
    [load_repositories] returns next, entry for entry and in the same
    order; and writing the list changes neither what is recorded as last
    used nor the protection of the default repositories. *)
Theorem save_repositories_round_trip repos s s' :
  save_repositories repos s = (Ok (), s') →
  load_repositories s' = (Ok repos, s') ∧
  (get_last_used s').1 = (get_last_used s).1 ∧
  ∀ x, (is_default_repository x s').1 = (is_default_repository x s).1.
Proof.
  intros Hsave. split; [by eapply save_repositories_load|]. revert Hsave.
  unfold save_repositories, get_last_used, is_default_repository. unfold_monad.
  destruct (load_config s) as [[config|e] s1] eqn:El; [|done].
  apply load_config_ok in El as [E [j Hd]].
  rewrite save_config_cases. destruct (write_error s1); [done|]. intros [= <-].
  rewrite (load_config_again _ (<["repositories" := entries repos]> config)).
  - rewrite !lookup_insert_ne by done. split; [done|intros x].
    by destruct (Py.json_contains _ _).
  - rewrite config_file_set_files. simpl. apply lookup_insert_eq.
  - rewrite !lookup_insert_ne by done. eauto.
Qed.


Lemma load_repositories_state s repos s1 :
  load_repositories s = (Ok repos, s1) → ∃ config, load_config s = (Ok config, s1).
Proof.
  unfold load_repositories. unfold_monad.
  destruct (load_config s) as [[config|e] s0]; [|done].
  destruct (Py.json_iter _); intros [= <- <-]. eauto.
Qed.

Lemma write_error_load_repositories s repos s1 :
  load_repositories s = (Ok repos, s1) → write_error s1 = write_error s.
Proof.
  intros [config El]%load_repositories_state.
  pose proof (load_config_same s) as (_ & Hw & _). by rewrite El in Hw.
Qed.

Lemma save_repositories_ok repos s config :
  load_config s = (Ok config, s) → write_error s = None →
  ∃ s', save_repositories repos s = (Ok (), s').
Proof.
  intros El Ew. unfold save_repositories. unfold_monad.
  rewrite El, save_config_cases, Ew. eauto.
Qed.

Lemma filter_shorter {A} (f : A → bool) (l : list A) :
  bool_decide (length (base.filter (λ x, negb (f x)) l) < length l)%nat = existsb f l.
Proof.
  induction l as [|x l IH]; [done|]. simpl. rewrite filter_cons.
  destruct (f x) eqn:Ef; simpl.
  - apply bool_decide_eq_true_2.
    pose proof (length_filter (λ x, negb (f x)) l). lia.
  - rewrite <- IH. apply bool_decide_ext. lia.
Qed.

Lemma filter_keeps_all {A} (f : A → bool) (l : list A) :
  existsb f l = false → base.filter (λ x, negb (f x)) l = l.
Proof.
  induction l as [|x l IH]; [done|]. simpl. rewrite filter_cons.
  intros [-> Hl]%orb_false_elim. simpl. by rewrite IH.
Qed.

(** X10. Removing a URL that is not protected: [remove_repository]
    returns whether some entry of the list has that URL; the next
    [load_repositories] returns the entries that have another URL, in
    their order; and when no entry has it, nothing is written. *)
Theorem remove_repository_removes url s s1 repos :
  is_default_repository url s = (Ok false, s1) →
  load_repositories s = (Ok repos, s1) →
  write_error s = None →
  let kept := base.filter (λ repo, negb (Py.eq_str (Repository.url repo) url)) repos in
  ∃ s',
    remove_repository url s =
    (Ok (existsb (λ repo, Py.eq_str (Repository.url repo) url) repos), s') ∧
    load_repositories s' = (Ok kept, s') ∧
    (kept = repos → s' = s1).
Proof.
  intros Hdefault Hload Ew kept. unfold remove_repository. unfold_monad.
  rewrite Hdefault. simpl.
  pose proof (write_error_load_repositories _ _ _ Hload) as Ew1. rewrite Ew in Ew1.
  apply load_repositories_state in Hload as Hconfig. destruct Hconfig as [config El].
  apply load_repositories_again in Hload. rewrite Hload.
  rewrite filter_shorter. fold kept.
  destruct (existsb _ repos) eqn:Ex.
  - apply load_config_ok in El as [E Hd].
    destruct (save_repositories_ok kept s1 config) as [s' Hs];
      [by apply load_config_again|done|].
    rewrite Hs. exists s'. split; [done|]. split; [by eapply save_repositories_load|].
    intros Hkept. rewrite <- filter_shorter in Ex. fold kept in Ex. rewrite Hkept in Ex.
    apply bool_decide_eq_true_1 in Ex. lia.
  - exists s1. split; [done|]. split; [|done].
    unfold kept. by rewrite filter_keeps_all.
Qed.








(** X12. On a first start (no configuration file, a directory that can be
    written) the list of repositories is the default repository alone,
    nothing is recorded as last used, and the default URL is protected. *)
Theorem first_start_state s :
  files s !! config_file s = None →
  write_error s = None →
  ∃ s',
    load_repositories s =
    (Ok [Repository.mk (JStr DEFAULT_URL) (JStr "drexjj/sbitx") (JStr (now s))], s') ∧
    get_last_used s' = (Ok (JStr "", JStr ""), s') ∧
    is_default_repository DEFAULT_URL s' = (Ok true, s') ∧
    files s' = <[config_file s := Document (default_config (now s))]> (files s).
Proof.
  intros E Ew.
  assert (∃ s', load_config s = (Ok (default_config (now s)), s') ∧
                files s' = <[config_file s := Document (default_config (now s))]> (files s))
    as (s' & El & Hf).
  { rewrite load_config_cases, E, create_default_config_cases, Ew. eauto. }
  exists s'. unfold load_repositories, get_last_used, is_default_repository. unfold_monad.
  rewrite El. apply load_config_ok in El as [E' Hd].
  rewrite (load_config_again s' _ E' Hd). by split_and!.
Qed.

Lemma same_bind {A B} (m : M Store A) (f : A → M Store B) :
  (∀ s, same_but_config s (m s).2) →
  (∀ a s, same_but_config s (f a s).2) →
  ∀ s, same_but_config s ((m ≫= f) s).2.
Proof.
  intros Hm Hf s. unfold mbind, M_bind. specialize (Hm s).
  destruct (m s) as [[a|e] s1]; [|done]. eapply same_trans; [exact Hm|apply Hf].
Qed.

Lemma same_ret {A} (a : A) s : same_but_config s ((mret a : M Store A) s).2.
Proof. apply same_refl. Qed.

Lemma same_of_res {A} (r : Res A) s : same_but_config s (of_res r s).2.
Proof. apply same_refl. Qed.

Lemma load_repositories_same s : same_but_config s (load_repositories s).2.
Proof.
  revert s. apply same_bind; [apply load_config_same|]. intros config.
  apply same_bind; [apply same_of_res|]. intros items. apply same_ret.
Qed.

Lemma save_repositories_same repos s : same_but_config s (save_repositories repos s).2.
Proof.
  revert s. apply same_bind; [apply load_config_same|]. intros config.
  apply save_config_same.
Qed.

(** X13. No method of the store touches a file other than the
    configuration file and its backup, and none changes the directory,
    whether it returns or raises. *)
Theorem store_methods_frame s :
  same_but_config s (load_config s).2 ∧
  (∀ repo, same_but_config s (add_repository repo s).2) ∧
  (∀ url, same_but_config s (remove_repository url s).2) ∧
  (∀ url branch, same_but_config s (set_last_used url branch s).2).
Proof.
  split_and!.
  - apply load_config_same.
  - intros repo. revert s. apply same_bind; [apply load_repositories_same|].
    intros repos s. destruct (existsb _ _); [apply same_ret|]. revert s.
    apply same_bind; [apply save_repositories_same|]. intros []. apply same_ret.
  - intros url. revert s. apply same_bind.
    { apply same_bind; [apply load_config_same|]. intros config. apply same_of_res. }
    intros [] s; [apply same_ret|]. revert s.
    apply same_bind; [apply load_repositories_same|]. intros repos s.
    cbv zeta. destruct (bool_decide _); [|apply same_ret]. revert s.
    apply same_bind; [apply save_repositories_same|]. intros []. apply same_ret.
  - intros url branch. revert s. apply same_bind; [apply load_config_same|].
    intros config. apply save_config_same.
Qed.

End MoreStore.

(* --------------------------------------------------------------------- *)
(** ** core/git_manager.py: the listing of the branches *)
(* --------------------------------------------------------------------- *)

Section Listing.
Implicit Types (s t a b : string) (c d : ascii).

Lemma rstrip_no_space s : no_space s → Py.rstrip s = s.
Proof.
  unfold no_space. induction s as [|c s IH]; [done|]. simpl.
  intros [Hc Hs]%andb_prop. rewrite IH by done.
  destruct s; [|done]. by destruct (Py.isspace c).
Qed.

Lemma rstrip_app_space s t : Py.rstrip t = "" → Py.rstrip (s +:+ t) = Py.rstrip s.
Proof.
  intros Ht. induction s as [|c s IH]; [done|]. rewrite app_cons. simpl. by rewrite IH.
Qed.

Lemma split_one sep s :
  all_in (λ c, negb (Ascii.eqb c sep)) s = true → Py.split sep s = [s].
Proof.
  induction s as [|c s IH]; [done|]. simpl. intros [Hc Hs]%andb_prop.
  apply negb_true_iff in Hc. by rewrite Hc, IH.
Qed.

Lemma split_app sep s t :
  all_in (λ c, negb (Ascii.eqb c sep)) s = true →
  Py.split sep (s +:+ String sep t) = s :: Py.split sep t.
Proof.
  induction s as [|c s IH]; intros Hs.
  - rewrite app_empty_l. simpl. by rewrite Ascii.eqb_refl.
  - simpl in Hs. apply andb_prop in Hs as [Hc Hs]. apply negb_true_iff in Hc.
    rewrite app_cons. simpl. by rewrite Hc, IH.
Qed.

Lemma replace_absent old s :
  Py.contains s old = false → Py.replace_go old "" 0 s = s.
Proof.
  induction s as [|c s IH]; [done|]. simpl.
  intros [-> Hs]%orb_false_elim. by rewrite IH.
Qed.

Lemma no_space_not s (sep : ascii) :
  Py.isspace sep = true → no_space s → all_in (λ c, negb (Ascii.eqb c sep)) s = true.
Proof.
  intros Hsep. apply all_in_impl. intros d Hd.
  destruct (Ascii.eqb_spec d sep) as [->|]; [by rewrite Hsep in Hd|done].
Qed.

Lemma line_no_sep entry (sep : ascii) :
  Py.isspace sep = true → sep ≠ Py.TAB → well_formed entry →
  all_in (λ c, negb (Ascii.eqb c sep)) (ls_remote_line entry) = true.
Proof.
  intros Hsep Htab (_ & Hhash & Hname & _). unfold ls_remote_line.
  rewrite all_in_app, no_space_not by done. simpl.
  destruct (Ascii.eqb_spec Py.TAB sep) as [<-|_]; [done|]. simpl.
  change ("refs/heads/" +:+ ?s) with ("r" +:+ ("efs/heads/" +:+ s)).
  rewrite !all_in_app, (no_space_not entry.2) by done. rewrite andb_true_r.
  revert Hsep. by destruct sep as [[] [] [] [] [] [] [] []].
Qed.

Lemma branch_of_ls_remote_line entry :
  well_formed entry → GitManager.branch_of_line (ls_remote_line entry) = [entry.2].
Proof.
  intros (Hne & Hhash & Hname & Habsent). unfold GitManager.branch_of_line.
  rewrite bool_decide_eq_false_2.
  2:{ unfold ls_remote_line. by intros [_ ?]%app_eq_empty. }
  unfold ls_remote_line. rewrite split_app by by apply no_space_not.
  rewrite split_one.
  2:{ change ("refs/heads/" +:+ ?s) with ("r" +:+ ("efs/heads/" +:+ s)).
      by rewrite !all_in_app, (no_space_not entry.2). }
  change (Py.replace ("refs/heads/" +:+ ?s) "refs/heads/" "")
    with (Py.replace_go "refs/heads/" "" 0 s).
  by rewrite replace_absent.
Qed.

Lemma ls_remote_line_not_empty entry : ls_remote_line entry ≠ "".
Proof. unfold ls_remote_line. by intros [_ ?]%app_eq_empty. Qed.

Lemma join_not_empty entry entries :
  Py.join Py.nl (ls_remote_line <$> entry :: entries) ≠ "".
Proof.
  rewrite fmap_cons. simpl. destruct (ls_remote_line <$> entries).
  - apply ls_remote_line_not_empty.
  - intros [? _]%app_eq_empty. by eapply ls_remote_line_not_empty.
Qed.

Lemma rstrip_ls_remote_line entry :
  well_formed entry → Py.rstrip (ls_remote_line entry) = ls_remote_line entry.
Proof.
  intros (_ & _ & Hname & _). unfold ls_remote_line.
  change (?h +:+ String Py.TAB ("refs/heads/" +:+ ?n))
    with (h +:+ (String Py.TAB "refs/heads" +:+ ("/" +:+ n))).
  assert (Py.rstrip ("/" +:+ entry.2) = "/" +:+ entry.2) as E
    by (apply rstrip_no_space; unfold no_space; simpl; exact Hname).
  rewrite <- app_assoc_s, rstrip_app; rewrite E; [done|by intros [? _]%app_eq_empty].
Qed.

Lemma rstrip_ls_remote_output entries :
  Forall well_formed entries →
  Py.rstrip (ls_remote_output entries) = Py.join Py.nl (ls_remote_line <$> entries).
Proof.
  induction 1 as [|entry entries Hentry Hentries IH]; [done|].
  destruct entries as [|entry' entries].
  - simpl. rewrite app_empty_r, rstrip_app_space by done.
    by apply rstrip_ls_remote_line.
  - pose proof (join_not_empty entry' entries) as Hne. rewrite <- IH in Hne.
    change (ls_remote_output (entry :: ?l))
      with (ls_remote_line entry +:+ Py.nl +:+ ls_remote_output l).
    rewrite <- app_assoc_s, rstrip_app by done.
    rewrite IH, app_assoc_s. by rewrite !fmap_cons.
Qed.

Lemma strip_ls_remote_output entries :
  Forall well_formed entries →
  Py.strip (ls_remote_output entries) = Py.join Py.nl (ls_remote_line <$> entries).
Proof.
  intros Hall. unfold Py.strip. rewrite lstrip_id; [by apply rstrip_ls_remote_output|].
  destruct Hall as [|[hash name] entries (Hne & Hhash & _) _]; [done|].
  simpl in *. unfold ls_remote_line. simpl.
  destruct hash as [|c hash]; [done|]. rewrite !app_cons. simpl.
  unfold no_space in Hhash. simpl in Hhash. apply andb_prop in Hhash as [Hc _].
  by apply negb_true_iff in Hc.
Qed.

Lemma split_join_lines entries :
  Forall well_formed entries → entries ≠ [] →
  Py.split Py.LF (Py.join Py.nl (ls_remote_line <$> entries)) = ls_remote_line <$> entries.
Proof.
  induction 1 as [|entry entries Hentry Hentries IH]; [done|]. intros _.
  destruct entries as [|entry' entries].
  - simpl. by apply split_one, line_no_sep.
  - rewrite fmap_cons. cbn [Py.join]. rewrite fmap_cons at 1.
    change (?a +:+ Py.nl +:+ ?b) with (a +:+ String Py.LF b).
    rewrite split_app by by apply line_no_sep.
    rewrite <- fmap_cons, IH; done.
Qed.

(** The loop of [fetch_branches] reads the branch names in a listing
    of well-formed lines. *)
Lemma parse_ls_remote_output entries :
  Forall well_formed entries →
  (Py.split Py.LF (Py.strip (ls_remote_output entries)) ≫= GitManager.branch_of_line)
  = entries.*2.
Proof.
  intros Hall. rewrite strip_ls_remote_output by done.
  destruct (decide (entries = [])) as [->|Hne]; [done|].
  rewrite split_join_lines by done. clear Hne.
  induction Hall as [|entry entries Hentry Hentries IH]; [done|].
  by rewrite !fmap_cons, bind_cons, branch_of_ls_remote_line, IH.
Qed.

End Listing.

(* --------------------------------------------------------------------- *)
(** ** core/git_manager.py and core/build_manager.py: the other wrappers *)
(* --------------------------------------------------------------------- *)

Section MoreWrappers.
Context `{OS}.
Import GitManager.
Implicit Types (p : Proc) (path url branch : string).

Local Abbreviation Proc_ e l := (Subprocess.mkProc _ e l).

(** X14. [clone_repository], [checkout_branch] and [update_submodules]
    each run one command.  When it exits with status 0 they return a
    successful result; in every other case (another status, time limit,
    command that cannot be started) they raise [GitError], and nothing
    else. *)
Theorem git_steps_run_one_command url branch path p :
  one_command (clone_cmd url path) p (clone_repository url path p) ∧
  one_command (checkout_cmd branch path) p (checkout_branch branch path p) ∧
  one_command (submodule_cmd path) p (update_submodules path p).
Proof.
  unfold one_command, clone_repository, checkout_branch, update_submodules, Subprocess.run.
  unfold_monad. split_and!.
  all: destruct (Subprocess.spawn _ _) as [[[| |] ? ?| |] e]; simpl; eauto.
Qed.

(** X15. [fetch_branches] runs one command.  What it returns is in the
    order of [str]; when the listing does not exit with status 0 it raises
    [GitError], and nothing else. *)
Theorem fetch_branches_sorted url p :
  match fetch_branches url p with
  | (Ok branches, p') =>
      Sorted String.le branches ∧
      ∃ out err, Subprocess.calls p' =
                 Subprocess.calls p ++ [(ls_remote_cmd url, Completed 0 out err)]
  | (Raise e, p') =>
      (∃ msg, e = GitError msg) ∧
      ∃ o, exited_zero o = false ∧
           Subprocess.calls p' = Subprocess.calls p ++ [(ls_remote_cmd url, o)]
  end.
Proof.
  pose proof (fetch_branches_cases url p) as Hcases. simpl in Hcases.
  destruct (Subprocess.spawn _ _) as [[[| |] ? ?| |] e].
  1: rewrite Hcases; split; [apply sorted_is_sorted|eauto].
  all: destruct Hcases as [text ->]; (split; [eauto|]); eexists; (split; [|reflexivity]); reflexivity.
Qed.

(** X16. On a listing of well-formed lines ([hash], a tabulation,
    [refs/heads/] and the name, each line ended by a newline; no white
    space in the hash and in the name, and no [refs/heads/] in the name)
    [fetch_branches] returns the names, sorted. *)
Theorem fetch_branches_reads_listing url p entries err e :
  Forall well_formed entries →
  Subprocess.spawn (ls_remote_cmd url) (Subprocess.env p)
  = (Completed 0 (ls_remote_output entries) err, e) →
  fetch_branches url p =
  (Ok (Py.sorted entries.*2),
   Proc_ e (Subprocess.calls p ++
            [(ls_remote_cmd url, Completed 0 (ls_remote_output entries) err)])).
Proof.
  intros Hall Hspawn.
  pose proof (fetch_branches_cases url p) as Hcases. simpl in Hcases.
  rewrite Hspawn in Hcases. by rewrite Hcases, parse_ls_remote_output.
Qed.

(** X17. [clean_build] runs [make clean]: when the command exits, it
    returns the status, a non-zero one included, and does not raise; when
    it does not exit it raises [BuildError]. *)
Theorem clean_build_cases path p :
  let c := BuildManager.clean_cmd path in
  let '(o, e) := Subprocess.spawn c (Subprocess.env p) in
  let p' := Proc_ e (Subprocess.calls p ++ [(c, o)]) in
  match o with
  | Completed rc _ _ =>
      BuildManager.clean_build path p = (Ok (BuildManager.mkResult (rc =? 0) rc), p')
  | _ => ∃ msg, BuildManager.clean_build path p = (Raise (BuildError msg), p')
  end.
Proof.
  intros c. unfold BuildManager.clean_build, Subprocess.run. unfold_monad. fold c.
  destruct (Subprocess.spawn _ _) as [[? ? ?| |] e]; simpl; eauto.
Qed.

(** X18. [check_build_prerequisites] runs nothing and never raises.  It
    reports [True], with the text [All prerequisites met], exactly when the
    directory, the build script and the Makefile exist; and then
    [run_build] does not stop at its first test: when the build script is
    a regular file, it runs the build. *)
Theorem check_build_prerequisites_cases path p :
  let present x := Subprocess.path_exists x (Subprocess.env p) in
  let script := Subprocess.joinpath path "build" in
  let ok := present path && present script && present (Subprocess.joinpath path "Makefile") in
  ∃ msg,
    BuildManager.check_build_prerequisites path p = (Ok (ok, msg), p) ∧
    (ok = true ↔ msg = "All prerequisites met") ∧
    (ok = true → Subprocess.path_is_file script (Subprocess.env p) = true →
     ∃ o e, (BuildManager.run_build path p).2
            = Proc_ e (Subprocess.calls p ++ [(BuildManager.build_cmd path, o)])).
Proof.
  intros present script ok. subst present script ok.
  unfold BuildManager.check_build_prerequisites, BuildManager.run_build,
    Subprocess.exists_, Subprocess.is_file, Subprocess.run.
  unfold_monad. simpl.
  destruct (Subprocess.path_exists path _);
    destruct (Subprocess.path_exists (Subprocess.joinpath path "build") _);
    destruct (Subprocess.path_exists (Subprocess.joinpath path "Makefile") _); simpl.
  all: eexists; split; [reflexivity|]; split; [by split|]; try done.
  intros _ ->. simpl.
  destruct (Subprocess.spawn _ _) as [[? ? ?| |] e]; simpl; eauto.
Qed.

End MoreWrappers.

(* --------------------------------------------------------------------- *)
(** ** gui/main_window.py: how a run ends *)
(* --------------------------------------------------------------------- *)

(** The messages a run has put on the queue, read off the final state. *)
Ltac collect_messages lhs q :=
  lazymatch lhs with
  | q => constr:(@nil (string * string))
  | ?l ++ [?m] => let r := collect_messages l q in constr:(r ++ [m])
  end.

Ltac finish_queue :=
  lazymatch goal with
  | |- ?l ++ [?m] = ?q ++ ?P ++ [?F] =>
      let p := collect_messages l q in
      unify P p; unify F m
  end;
  rewrite <- ?(assoc_L (++)); reflexivity.

Section MoreWorker.
Context `{OS}.
Import GitManager MainWindow.
Implicit Types (a : App) (url branch : string).

(** X19. Every run of the worker makes at least one external call and
    closes with exactly one message that is not a progress message, the
    last one on the queue; the messages before it are progress messages.
    The closing message is decided by the last call: the refusal after a
    work-tree check that exits with a non-zero status; a [Git error] after
    a command of git that does not exit with status 0; a [Build error]
    when the build script is missing (the last call is then the update of
    the submodules) or does not exit; [build_error] after a build that
    exits with a non-zero status; after a build that exits with status 0,
    [build_success], or an [Unexpected error] when the last-used state
    cannot be recorded; an [Unexpected error] when the work-tree check
    does not exit. *)
Theorem worker_ending url branch a :
  let a' := run_worker url branch a in
  ∃ trace progress final,
    Subprocess.calls (proc a') = Subprocess.calls (proc a) ++ trace ∧
    task_queue a' = task_queue a ++ progress ++ [final] ∧
    Forall (λ m, m.1 = "progress") progress ∧
    ending (last trace) final.
Proof.
  intros a'.
  remember (run_worker url branch a) as final eqn:Hfinal. subst a'.
  revert Hfinal. unfold_worker.
  repeat worker_step.
  all: try store_step.
  all: intros ->; simpl.
  all: eexists _, _, _.
  all: split; [rewrite <- ?(assoc_L (++)); reflexivity|].
  all: split; [finish_queue|].
  all: split; [simpl; repeat (constructor; [reflexivity|]); constructor|].
  all: simpl.
  all: try store_facts.
  all: by econstructor.
Qed.

(** X20. A run of the worker changes neither of the two tracking fields,
    and leaves the store as it was unless its last call is a build that
    exits with status 0; the store is then what [set_last_used] leaves. *)
Theorem worker_store_frame url branch a :
  let a' := run_worker url branch a in
  current_repo_url a' = current_repo_url a ∧
  current_branch_name a' = current_branch_name a ∧
  (store a' = store a ∨
   ∃ trace out err,
     Subprocess.calls (proc a') = Subprocess.calls (proc a) ++ trace ∧
     last trace = Some (BuildManager.build_cmd TARGET_PATH, Completed 0 out err) ∧
     store a' = (ConfigManager.set_last_used url branch (store a)).2).
Proof.
  intros a'.
  remember (run_worker url branch a) as final eqn:Hfinal. subst a'.
  revert Hfinal. unfold_worker.
  repeat worker_step.
  all: try store_step.
  all: intros ->; simpl.
  all: split; [reflexivity|]; split; [reflexivity|].
  all: try (by left).
  all: right; eexists _, _, _; split; [rewrite <- ?(assoc_L (++)); reflexivity|].
  all: split; [reflexivity|].
  all: reflexivity.
Qed.

(** X21. The status refresh only reads: it makes no mutating call, puts
    nothing on the queue and leaves the store alone; and it records a
    remote or a branch only when the probe has answered [GIT_REPO]. *)
Theorem detect_only_reads a :
  let a' := (detect_current_repo_branch a).2 in
  store a' = store a ∧
  task_queue a' = task_queue a ∧
  (∃ trace, Subprocess.calls (proc a') = Subprocess.calls (proc a) ++ trace ∧
            Forall (λ x, is_mutating x.1 = false) trace) ∧
  ((check_directory_status TARGET_PATH (proc a)).1 ≠ Ok GIT_REPO →
   current_repo_url a' = None ∧ current_branch_name a' = None).
Proof.
  intros a'.
  remember ((detect_current_repo_branch a).2) as final eqn:Hfinal. subst a'.
  revert Hfinal.
  unfold detect_current_repo_branch, on_proc, set_current, check_directory_status,
    get_current_remote, get_current_branch, Subprocess.exists_, Subprocess.run.
  unfold_monad. simpl.
  repeat first
    [ worker_step
    | match goal with
      | |- context [Repository.validate_and_normalize_url ?u] =>
          destruct (Repository.validate_and_normalize_url u); simpl
      end ].
  all: intros ->; simpl.
  all: split; [reflexivity|]; split; [reflexivity|].
  all: split; [eexists; split; [rewrite <- ?(assoc_L (++)); try reflexivity;
                                symmetry; apply app_nil_r|
                                repeat (constructor; [reflexivity|]); constructor]|].
  all: try done.
Qed.

End MoreWorker.

(* --------------------------------------------------------------------- *)
(** ** Further runs on the small machine *)
(* --------------------------------------------------------------------- *)

Section MoreRuns.
Import GitManager MainWindow Sim.

(** An SSH URL under a display name of the user's own. *)
Lemma get_short_name_canonical_witness :
  let repo := Repository.mk (JStr "git@github.com:octo/cat.git") (JStr "my cat") (JStr "") in
  owner_repo_name "octo/cat" ∧
  (Repository.url repo = JStr (https_form "octo/cat") ∨
   Repository.url repo = JStr (ssh_form "octo/cat")) ∧
  Repository.get_short_name repo = Ok (JStr "octo/cat").
Proof.
  intros repo.
  assert (owner_repo_name "octo/cat") as H1 by (exists "octo", "cat"; by split_and!).
  assert (Repository.url repo = JStr (https_form "octo/cat") ∨
          Repository.url repo = JStr (ssh_form "octo/cat")) as H2 by (right; reflexivity).
  split; [exact H1|]. split; [exact H2|].
  exact (get_short_name_canonical "octo/cat" repo H1 H2).
Defined.

(** A work tree whose origin is written [git@github.com:octo/cat]: the
    URL reported has the suffix, and [create_new] keeps it. *)
Lemma current_remote_is_normal_witness :
  let p := boot ssh_origin in
  let u := "git@github.com:octo/cat.git" in
  let p' := (get_current_remote (H := Sim.os) TARGET_PATH p).2 in
  get_current_remote (H := Sim.os) TARGET_PATH p = (Ok (Some u), p') ∧
  match Repository.create_new "2024-01-01T00:00:00" u with
  | Some repo => Repository.url repo = JStr u
  | None => Repository.validate_and_normalize_url u = None
  end.
Proof.
  intros p u p'.
  assert (get_current_remote (H := Sim.os) TARGET_PATH p = (Ok (Some u), p')) as H1
    by (vm_compute; reflexivity).
  split; [exact H1|].
  exact (current_remote_is_normal (H := Sim.os) TARGET_PATH p u p' "2024-01-01T00:00:00" H1).
Defined.

(** A first load, in an empty directory. *)
Lemma load_config_idempotent_witness :
  let s := disk ∅ in
  let config := default_config (ConfigManager.now s) in
  let s' := (ConfigManager.load_config s).2 in
  ConfigManager.load_config s = (Ok config, s') ∧
  ConfigManager.load_config s' = (Ok config, s').
Proof.
  intros s config s'.
  assert (ConfigManager.load_config s = (Ok config, s')) as H1 by (vm_compute; reflexivity).
  split; [exact H1|]. exact (load_config_idempotent s config s' H1).
Defined.

(** A configuration without a list of default repositories: the list is
    there after the load. *)
Lemma save_config_load_witness :
  let s := disk ∅ in
  let s' := (ConfigManager.save_config bare_config s).2 in
  ConfigManager.save_config bare_config s = (Ok (), s') ∧
  let config' :=
    if bool_decide (is_Some (bare_config !! "default_repositories")) then bare_config
    else <["default_repositories" := JList [JStr ConfigManager.DEFAULT_URL]]> bare_config in
  ∃ s'',
    ConfigManager.load_config s' = (Ok config', s'') ∧
    ConfigManager.load_config s'' = (Ok config', s'') ∧
    (is_Some (bare_config !! "default_repositories") → s'' = s').
Proof.
  intros s s'.
  assert (ConfigManager.save_config bare_config s = (Ok (), s')) as H1
    by (vm_compute; reflexivity).
  split; [exact H1|]. exact (save_config_load bare_config s s' H1).
Defined.

(** Two repositories written over the configuration of a first start. *)
Lemma save_repositories_round_trip_witness :
  let s := disk first_start in
  let repos := [octo_repository; default_repository] in
  let s' := (ConfigManager.save_repositories repos s).2 in
  ConfigManager.save_repositories repos s = (Ok (), s') ∧
  ConfigManager.load_repositories s' = (Ok repos, s') ∧
  (ConfigManager.get_last_used s').1 = (ConfigManager.get_last_used s).1 ∧
  ∀ x, (ConfigManager.is_default_repository x s').1
       = (ConfigManager.is_default_repository x s).1.
Proof.
  intros s repos s'.
  assert (ConfigManager.save_repositories repos s = (Ok (), s')) as H1
    by (vm_compute; reflexivity).
  split; [exact H1|]. exact (save_repositories_round_trip repos s s' H1).
Defined.


(** Removing [octo/cat] from a list that holds it after the default
    repository. *)
Lemma remove_repository_removes_witness :
  let s := disk with_octo in
  let repos := [default_repository; octo_repository] in
  ConfigManager.is_default_repository octo s = (Ok false, s) ∧
  ConfigManager.load_repositories s = (Ok repos, s) ∧
  ConfigManager.write_error s = None ∧
  let kept := base.filter (λ repo, negb (Py.eq_str (Repository.url repo) octo)) repos in
  ∃ s',
    ConfigManager.remove_repository octo s =
    (Ok (existsb (λ repo, Py.eq_str (Repository.url repo) octo) repos), s') ∧
    ConfigManager.load_repositories s' = (Ok kept, s') ∧
    (kept = repos → s' = s).
Proof.
  intros s repos.
  assert (ConfigManager.is_default_repository octo s = (Ok false, s)) as H1
    by (vm_compute; reflexivity).
  assert (ConfigManager.load_repositories s = (Ok repos, s)) as H2
    by (vm_compute; reflexivity).
  assert (ConfigManager.write_error s = None) as H3 by reflexivity.
  split; [exact H1|]. split; [exact H2|]. split; [exact H3|].
  exact (remove_repository_removes octo s s repos H1 H2 H3).
Defined.



(** An empty directory that can be written. *)
Lemma first_start_state_witness :
  let s := disk ∅ in
  ConfigManager.files s !! ConfigManager.config_file s = None ∧
  ConfigManager.write_error s = None ∧
  ∃ s',
    ConfigManager.load_repositories s =
    (Ok [Repository.mk (JStr ConfigManager.DEFAULT_URL) (JStr "drexjj/sbitx")
                       (JStr (ConfigManager.now s))], s') ∧
    ConfigManager.get_last_used s' = (Ok (JStr "", JStr ""), s') ∧
    ConfigManager.is_default_repository ConfigManager.DEFAULT_URL s' = (Ok true, s') ∧
    ConfigManager.files s' =
    <[ConfigManager.config_file s :=
        ConfigManager.Document (default_config (ConfigManager.now s))]>
      (ConfigManager.files s).
Proof.
  intros s.
  assert (ConfigManager.files s !! ConfigManager.config_file s = None) as H1
    by (vm_compute; reflexivity).
  assert (ConfigManager.write_error s = None) as H2 by reflexivity.
  split; [exact H1|]. split; [exact H2|].
  exact (first_start_state s H1 H2).
Defined.

(** The listing of the scenario, each line ended by a newline. *)
Lemma fetch_branches_reads_listing_witness :
  let p := remote (ls_remote_output branch_entries) in
  let e := (Subprocess.spawn (ls_remote_cmd octo) (Subprocess.env p)).2 in
  Forall well_formed branch_entries ∧
  Subprocess.spawn (ls_remote_cmd octo) (Subprocess.env p)
  = (Completed 0 (ls_remote_output branch_entries) "", e) ∧
  fetch_branches octo p =
  (Ok (Py.sorted branch_entries.*2),
   Subprocess.mkProc Sim.os e
     (Subprocess.calls p ++
      [(ls_remote_cmd octo, Completed 0 (ls_remote_output branch_entries) "")])).
Proof.
  intros p e.
  assert (Forall well_formed branch_entries) as H1
    by (repeat (constructor; [by split_and!|]); constructor).
  assert (Subprocess.spawn (ls_remote_cmd octo) (Subprocess.env p)
          = (Completed 0 (ls_remote_output branch_entries) "", e)) as H2
    by (vm_compute; reflexivity).
  split; [exact H1|]. split; [exact H2|].
  exact (fetch_branches_reads_listing (H := Sim.os) octo p branch_entries "" e H1 H2).
Defined.

End MoreRuns.
